(** * Seat-reservation workflows: the reservation state machine

    A shallow embedding of the two demo workflows of the repository:

    - the Cloudflare workflow [ReservationWorkflow.run]
      (workflows/ReservationWorkflow.ts: create-hold, sleep, finalize) and the
      Hono worker routes of cf-workflow/src/index.ts, which share one KV
      namespace, [RESERVATIONS_KV];
    - the AWS Lambda durable function [handler] of
      aws-durable_functions/reservation-workflow/app.ts.

    Conventions of the embedding.

    - A timestamp is the number of milliseconds since the epoch, an integer
      ([Date.getTime ()]).  The source stores ISO-8601 strings made by
      [toISOString] and reads them back with [new Date (s)]; the two are
      inverse on the milliseconds of a valid date, so the string layer is
      left out.
    - [new Date ()] is a read of the wall clock: every read is a parameter of
      the function that embeds the code around it.
    - The KV namespace is a finite map from keys to entries.  An entry holds
      the value, here the [ReservationData] whose JSON text the source
      stores ([JSON.stringify] / [JSON.parse]), and the [expirationTtl]
      option of the [put] that wrote it.  KV calls are taken to succeed, so
      the [catch] branches of the routes (HTTP 500) are not reached.
    - An optional property of a TypeScript interface is an [option]. *)

From Stdlib Require Import ZArith Lia Ascii.
From stdpp Require Import base gmap strings pretty.

#[local] Open Scope Z_scope.
#[local] Open Scope string_scope.

(** ** Data model (ReservationWorkflow.ts) *)

(** [type ReservationStatus = 'pending' | 'held' | 'confirmed' | 'expired'] *)
Inductive ReservationStatus : Set :=
| pending
| held
| confirmed
| expired.

#[global] Instance ReservationStatus_eq_dec : EqDecision ReservationStatus.
Proof. solve_decision. Defined.

(** The text of a status, as a template literal prints it. *)
Definition status_text (s : ReservationStatus) : string :=
  match s with
  | pending => "pending"
  | held => "held"
  | confirmed => "confirmed"
  | expired => "expired"
  end.

(** [interface ReservationData] *)
Record ReservationData : Set := mkReservation {
  reservationId : string;
  seatId : string;
  userId : option string;
  status : ReservationStatus;
  createdAt : Z;
  expiresAt : Z;
  confirmedAt : option Z;
  expiredAt : option Z;
}.

(** [{ ...reservationData, status: 'expired', expiredAt: now }] *)
Definition expiredData (reservationData : ReservationData) (now : Z)
  : ReservationData :=
  {| reservationId := reservationId reservationData;
     seatId := seatId reservationData;
     userId := userId reservationData;
     status := expired;
     createdAt := createdAt reservationData;
     expiresAt := expiresAt reservationData;
     confirmedAt := confirmedAt reservationData;
     expiredAt := Some now |}.

(** [{ ...reservationData, status: 'confirmed', confirmedAt: now }] *)
Definition confirmedData (reservationData : ReservationData) (now : Z)
  : ReservationData :=
  {| reservationId := reservationId reservationData;
     seatId := seatId reservationData;
     userId := userId reservationData;
     status := confirmed;
     createdAt := createdAt reservationData;
     expiresAt := expiresAt reservationData;
     confirmedAt := Some now;
     expiredAt := expiredAt reservationData |}.

(** The hold period both workflows add to the creation time,
    [15 * 60 * 1000] milliseconds. *)
Definition HOLD_MS : Z := 15 * 60 * 1000.

(** ** The KV namespace *)

Record KVEntry : Set := mkEntry {
  value : ReservationData;
  expirationTtl : option Z;
}.

Abbreviation KV := (gmap string KVEntry).

(** [await KV.get (key)]: the stored value, or [null]. *)
Definition KV_get (kv : KV) (key : string) : option ReservationData :=
  value <$> kv !! key.

(** [await KV.put (key, JSON.stringify (v), options)] *)
Definition KV_put (key : string) (v : ReservationData) (ttl : option Z)
    (kv : KV) : KV :=
  <[key := mkEntry v ttl]> kv.

(** [60 * 60 * 24], the seconds an audited record is kept. *)
Definition AUDIT_TTL : Z := 60 * 60 * 24.

(** ** The durable engines' timing

    A run of either workflow reads the clock in its first step, issues the
    wait, and reads the clock again in its last step. *)
Record Schedule : Set := mkSchedule {
  t_create : Z;
  t_wait : Z;
  t_finalize : Z;
}.

(** Modelled from the spec: the suspend/resume scheduler of the hosting
    platform, which is not part of the repository.  Section 4.3 gives a wait
    the deadline [now + duration], counted from the moment the wait is
    issued, and section 8 (wait correctness) says a wait never returns before
    its deadline.  The wait is issued once the first step has run. *)
Definition wait_respected (duration_ms : Z) (s : Schedule) : Prop :=
  t_create s <= t_wait s /\ t_wait s + duration_ms <= t_finalize s.

#[global] Instance wait_respected_dec d s : Decision (wait_respected d s).
Proof. unfold wait_respected. apply _. Defined.

(** ** The Cloudflare workflow (workflows/ReservationWorkflow.ts) *)

Module CfWorkflow.

(** [type ReservationParams] *)
Record ReservationParams : Set := mkParams {
  param_reservationId : string;
  param_seatId : string;
  param_userId : option string;
}.

(** What the finalize step returns: [{ status: 'not_found' }] or
    [{ status: s }] for a reservation status [s]. *)
Inductive FinalizeResult : Set :=
| not_found
| status_is (s : ReservationStatus).

(** The body of [step.do ('create-hold', ...)]; [now] is its [new Date ()]. *)
Definition create_hold (payload : ReservationParams) (now : Z) (kv : KV)
  : KV * ReservationData :=
  let expiresAt := now + HOLD_MS in
  let reservationData :=
    {| reservationId := param_reservationId payload;
       seatId := param_seatId payload;
       userId := param_userId payload;
       status := held;
       createdAt := now;
       expiresAt := expiresAt;
       confirmedAt := None;
       expiredAt := None |} in
  (KV_put (param_reservationId payload) reservationData (Some AUDIT_TTL) kv,
   reservationData).

(** A [WorkflowSleepDuration] written [`${n} ${unit}`]. *)
Inductive SleepUnit : Set := seconds | minutes | hours.

Definition sleep_ms (n : Z) (u : SleepUnit) : Z :=
  match u with
  | seconds => n * 1000
  | minutes => n * 60 * 1000
  | hours => n * 60 * 60 * 1000
  end.

(** [step.sleep ('wait-for-confirmation', '15 minutes')] *)
Definition wait_for_confirmation : Z := sleep_ms 15 minutes.

(** The body of [step.do ('finalize-reservation', ...)]; [now] is the
    [new Date ()] of its held branch. *)
Definition finalize_reservation (reservationId : string) (now : Z) (kv : KV)
  : KV * FinalizeResult :=
  match KV_get kv reservationId with
  | None => (kv, not_found)
  | Some reservationData =>
      match status reservationData with
      | confirmed => (kv, status_is confirmed)
      | held =>
          (KV_put reservationId (expiredData reservationData now)
             (Some AUDIT_TTL) kv,
           status_is expired)
      | other => (kv, status_is other)
      end
  end.

(** [run (event, step)]: the create-hold step, the sleep, the finalize step.
    The clock reads of the two steps come from the schedule the engine
    follows.  While the instance sleeps the namespace belongs to the rest of
    the system (the worker's routes, the expiry of entries): [during_sleep]
    is what they do to it.  The result lists what the two steps returned. *)
Definition run (event : ReservationParams) (s : Schedule)
    (during_sleep : KV -> KV) (kv : KV)
  : KV * (ReservationData * FinalizeResult) :=
  let reservationId := param_reservationId event in
  let '(kv, reservation) := create_hold event (t_create s) kv in
  let kv := during_sleep kv in
  let '(kv, final) := finalize_reservation reservationId (t_finalize s) kv in
  (kv, (reservation, final)).

End CfWorkflow.

(** ** The Cloudflare worker routes (cf-workflow/src/index.ts) *)

Module CfApi.

(** [c.json (body, code)]: the keys a route puts in its JSON body, and the
    HTTP status code. *)
Record Response : Set := mkResponse {
  http_status : Z;
  body_error : option string;
  body_message : option string;
  body_reservationId : option string;
  body_reservation : option ReservationData;
}.

Definition error_response (code : Z) (msg : string)
    (rid : option string) (r : option ReservationData) : Response :=
  mkResponse code (Some msg) None rid r.

Definition message_response (code : Z) (msg : string)
    (r : ReservationData) : Response :=
  mkResponse code None (Some msg) None (Some r).

(** [app.post ('/confirm/:id', ...)].  The route reads the clock twice:
    [tCheck] is the [new Date ()] compared with [expiresAt], [tStamp] the
    [new Date ()] written into the record. *)
Definition post_confirm (reservationId : string) (tCheck tStamp : Z)
    (kv : KV) : KV * Response :=
  if decide (reservationId = "") then
    (kv, error_response 400 "Reservation ID is required" None None)
  else
    match KV_get kv reservationId with
    | None =>
        (kv, error_response 404 "Reservation not found"
               (Some reservationId) None)
    | Some reservationData =>
        match status reservationData with
        | confirmed =>
            (kv, message_response 200 "Reservation is already confirmed"
                   reservationData)
        | expired =>
            (kv, error_response 410
                   "Reservation has expired and cannot be confirmed"
                   None (Some reservationData))
        | pending =>
            (kv, error_response 400
                   ("Reservation cannot be confirmed from status: "
                      +:+ status_text (status reservationData))
                   None (Some reservationData))
        | held =>
            if tCheck >? expiresAt reservationData then
              let expiredData := expiredData reservationData tStamp in
              (KV_put reservationId expiredData None kv,
               error_response 410
                 "Reservation has expired (confirmation time exceeded)"
                 None (Some expiredData))
            else
              let confirmedData := confirmedData reservationData tStamp in
              (KV_put reservationId confirmedData (Some AUDIT_TTL) kv,
               message_response 200 "Reservation confirmed successfully"
                 confirmedData)
        end
    end.

(** A response that reports failure carries an [error] key. *)
Definition is_error (r : Response) : bool :=
  match body_error r with Some _ => true | None => false end.

(** The routes name no kinds of error: a failure is a status code and an
    [error] text.  [AlreadyExpired] in the design is the failure of a
    confirm that finds the reservation expired already; the route answers it
    with [410] (Gone) and a text of its own, which the answer to a confirm
    that comes late for a reservation still held does not carry. *)
Definition AlreadyExpired (r : Response) : bool :=
  (http_status r =? 410)%Z
  && bool_decide
       (body_error r = Some "Reservation has expired and cannot be confirmed").

End CfApi.

(** ** The AWS Lambda durable function (reservation-workflow/app.ts) *)

Module AwsLambda.

(** [interface ReservationEvent] *)
Record ReservationEvent : Set := mkEvent {
  event_seatId : string;
  event_userId : option string;
}.

(** STEP 1, the first [context.step]: [uuid] is its [crypto.randomUUID ()],
    [now] its [new Date ()].  The interface of this file has no
    [confirmedAt] and no [expiredAt]: the keys are absent. *)
Definition step1 (event : ReservationEvent) (uuid : string) (now : Z)
  : ReservationData :=
  let reservationId := uuid in
  let expiresAt := now + HOLD_MS in
  {| reservationId := reservationId;
     seatId := event_seatId event;
     userId := event_userId event;
     status := held;
     createdAt := now;
     expiresAt := expiresAt;
     confirmedAt := None;
     expiredAt := None |}.

(** [context.wait ({ seconds: 30 })] *)
Definition WAIT_SECONDS : Z := 30.

Definition wait_ms : Z := WAIT_SECONDS * 1000.

(** What the handler returns. *)
Record HandlerResult : Set := mkResult {
  message : string;
  reservation : ReservationData;
}.

(** [handler (event, context)]: STEP 1, the wait, and STEP 2, which returns
    [{ ...reservation, status: "expired", expiredAt: now }] for the
    reservation of STEP 1. *)
Definition handler (event : ReservationEvent) (uuid : string) (s : Schedule)
  : HandlerResult :=
  let reservation := step1 event uuid (t_create s) in
  let finalResult := expiredData reservation (t_finalize s) in
  {| message := "Reservation workflow completed";
     reservation := finalResult |}.

End AwsLambda.

(** ** Calls on a stored reservation

    The two writers of a reservation after its creation: the confirm route
    and the finalize step. *)
Inductive Call : Set :=
| Confirm (reservationId : string) (tCheck tStamp : Z)
| Finalize (reservationId : string) (now : Z).

Definition apply_call (c : Call) (kv : KV) : KV :=
  match c with
  | Confirm id tCheck tStamp => (CfApi.post_confirm id tCheck tStamp kv).1
  | Finalize id now => (CfWorkflow.finalize_reservation id now kv).1
  end.

Definition apply_calls (cs : list Call) (kv : KV) : KV :=
  foldl (fun kv c => apply_call c kv) kv cs.

(** The fields that identify a reservation and its hold. *)
Definition same_identity (r r' : ReservationData) : Prop :=
  reservationId r' = reservationId r /\
  seatId r' = seatId r /\
  userId r' = userId r /\
  createdAt r' = createdAt r /\
  expiresAt r' = expiresAt r.

(** [r'] is [r], or [r] moved to a terminal status with nothing but the
    status and the timestamp of that status written. *)
Definition only_terminal_stamp (r r' : ReservationData) : Prop :=
  r' = r \/
  (exists t, r' = confirmedData r t) \/
  (exists t, r' = expiredData r t).

(** ** Sample data *)

Definition sample_held : ReservationData :=
  {| reservationId := "r-1"; seatId := "A1"; userId := Some "user123";
     status := held; createdAt := 0; expiresAt := 900000;
     confirmedAt := None; expiredAt := None |}.

Definition sample_kv (r : ReservationData) : KV :=
  KV_put "r-1" r (Some AUDIT_TTL) ∅.

Definition sample_confirmed : ReservationData := confirmedData sample_held 5000.

Definition sample_expired : ReservationData := expiredData sample_held 900000.

Definition sample_event : AwsLambda.ReservationEvent :=
  {| AwsLambda.event_seatId := "A1";
     AwsLambda.event_userId := Some "user123" |}.

(** The Lambda function resumed as soon as its wait allows. *)
Definition earliest_resume (t : Z) : Schedule :=
  {| t_create := t; t_wait := t; t_finalize := t + AwsLambda.wait_ms |}.

Definition sample_params : CfWorkflow.ReservationParams :=
  {| CfWorkflow.param_reservationId := "r-1";
     CfWorkflow.param_seatId := "A1";
     CfWorkflow.param_userId := Some "user123" |}.

Definition on_time : Schedule :=
  {| t_create := 0; t_wait := 1; t_finalize := 900001 |}.

(** ** The status route (cf-workflow/src/index.ts) *)

Module CfStatus.

(** The JSON body and the code of an answer of [GET /reservation/:id]. *)
Record StatusResponse : Set := mkStatusResponse {
  http_status : Z;
  body_error : option string;
  body_reservationId : option string;
  body_reservation : option ReservationData;
  body_timeRemaining : option string;
}.

(** [Math.floor (msRemaining / 60000)] and
    [Math.floor ((msRemaining % 60000) / 1000)]: [%] is the remainder with
    the sign of the dividend. *)
Definition minutes_seconds (msRemaining : Z) : Z * Z :=
  (msRemaining / 60000, Z.rem msRemaining 60000 / 1000).

(** [let timeRemaining: string | null = null; if (status === 'held') ...];
    [now] is the [new Date ()] of the route.  A template literal prints an
    integer in decimal. *)
Definition timeRemaining (reservationData : ReservationData) (now : Z)
  : option string :=
  match status reservationData with
  | held =>
      let msRemaining := expiresAt reservationData - now in
      if msRemaining >? 0 then
        let '(minutes, seconds) := minutes_seconds msRemaining in
        Some (pretty minutes +:+ "m " +:+ pretty seconds +:+ "s")
      else Some "expired"
  | _ => None
  end.

(** [app.get ('/reservation/:id', ...)] *)
Definition get_reservation (reservationId : string) (now : Z) (kv : KV)
  : StatusResponse :=
  if decide (reservationId = "") then
    mkStatusResponse 400 (Some "Reservation ID is required") None None None
  else
    match KV_get kv reservationId with
    | None =>
        mkStatusResponse 404 (Some "Reservation not found")
          (Some reservationId) None None
    | Some reservationData =>
        mkStatusResponse 200 None None (Some reservationData)
          (timeRemaining reservationData now)
    end.

End CfStatus.

(** ** The reserve route (cf-workflow/src/index.ts) *)

Module CfReserve.

(** The body of the request when it is of the type the route declares,
    [{ seatId: string; userId?: string }]: an object whose [seatId] and
    [userId] are strings where it has them; a key that the object lacks is
    [None]. *)
Record ReserveBody : Set := mkBody {
  body_seatId : option string;
  body_userId : option string;
}.

(** What a [throw] carries: an [Error] with its message, or another value. *)
Inductive Thrown : Set :=
| ErrorObject (message : string)
| OtherValue.

(** [error instanceof Error ? error.message : 'Unknown error'] *)
Definition details_of (error : Thrown) : string :=
  match error with
  | ErrorObject message => message
  | OtherValue => "Unknown error"
  end.

Record ReserveResponse : Set := mkReserveResponse {
  http_status : Z;
  body_error : option string;
  body_details : option string;
  body_reservationId : option string;
  body_seat : option string;
  body_status : option string;
  body_message : option string;
  body_expiresIn : option string;
  body_workflowInstanceId : option string;
  body_workflowStatus : option string;
}.

Definition failure (code : Z) (error : string) (details : option string)
  : ReserveResponse :=
  mkReserveResponse code (Some error) details
    None None None None None None None.

(** [!body.seatId]: the key is absent or the empty string. *)
Definition seatId_missing (body : ReserveBody) : bool :=
  match body_seatId body with
  | None => true
  | Some seat => bool_decide (seat = "")
  end.

(** [app.post ('/reserve', ...)] on a body of the type the route declares
    (the route on any body is [CfReserveAny.post_reserve]).  [json] is the
    outcome of [await c.req.json ()], [uuid] the [crypto.randomUUID ()],
    [created] the outcome of [RESERVATION_WORKFLOW.create], the [id] of the
    instance when it returns one, and [instanceStatus] the outcome of
    [instance.status ()], whose answer is kept as text.  The first component
    is the [create] the route asks of the workflow binding, when it gets
    that far: the instance id and the params. *)
Definition post_reserve (json : Thrown + ReserveBody) (uuid : string)
    (created : Thrown + string) (instanceStatus : Thrown + string)
  : option (string * CfWorkflow.ReservationParams) * ReserveResponse :=
  match json with
  | inl error =>
      (None, failure 500 "Failed to create reservation"
               (Some (details_of error)))
  | inr body =>
      match body_seatId body with
      | None => (None, failure 400 "seatId is required" None)
      | Some seat =>
          if decide (seat = "") then
            (None, failure 400 "seatId is required" None)
          else
            let reservationId := uuid in
            let params :=
              {| CfWorkflow.param_reservationId := reservationId;
                 CfWorkflow.param_seatId := seat;
                 CfWorkflow.param_userId := body_userId body |} in
            (Some (reservationId, params),
             match created with
             | inl error =>
                 failure 500 "Failed to create reservation"
                   (Some (details_of error))
             | inr instance_id =>
                 match instanceStatus with
                 | inl error =>
                     failure 500 "Failed to create reservation"
                       (Some (details_of error))
                 | inr status =>
                     mkReserveResponse 201 None None
                       (Some reservationId) (Some seat) (Some "held")
                       (Some "Reservation created with 15-minute hold. Please confirm before expiration.")
                       (Some "15 minutes")
                       (Some instance_id)
                       (Some status)
                 end
             end)
      end
  end.

(** The workflow instance that runs after the route has answered: the one
    the route asked for, when [create] returned. *)
Definition started (json : Thrown + ReserveBody) (uuid : string)
    (created : Thrown + string) (instanceStatus : Thrown + string)
  : option CfWorkflow.ReservationParams :=
  match (post_reserve json uuid created instanceStatus).1, created with
  | Some (_, params), inr _ => Some params
  | _, _ => None
  end.

End CfReserve.

(** ** The reserve route on any body (cf-workflow/src/index.ts) *)

Module CfReserveAny.

(** A property of the parsed body, as far as the route looks at it: it tests
    [seatId] with [!] and hands [seatId] and [userId] on as they are.
    [js_absent] is [undefined], the value of a key the body lacks;
    [js_zero] is the number 0; [js_other] is any other value ([true], a
    number that is not 0, an array, an object), kept by its JSON text. *)
Inductive Property : Set :=
| js_absent
| js_null
| js_false
| js_zero
| js_text (s : string)
| js_other (json : string).

(** [!value] *)
Definition falsy (value : Property) : bool :=
  match value with
  | js_text s => bool_decide (s = "")
  | js_other _ => false
  | _ => true
  end.

(** What [await c.req.json ()] returns: [null], or a value whose [seatId]
    and [userId] can be read (a value that is not an object has neither). *)
Inductive Body : Set :=
| null_body
| value_body (seatId userId : Property).

(** The message of the [TypeError] that reading [seatId] of [null] throws. *)
Definition NULL_BODY_MESSAGE : string :=
  "Cannot read properties of null (reading 'seatId')".

(** The params the route hands to [RESERVATION_WORKFLOW.create]. *)
Record Params : Set := mkParams {
  param_reservationId : string;
  param_seatId : Property;
  param_userId : Property;
}.

Record Response : Set := mkResponse {
  http_status : Z;
  body_error : option string;
  body_details : option string;
  body_reservationId : option string;
  body_seatId : option Property;
  body_status : option string;
  body_message : option string;
  body_expiresIn : option string;
  body_workflowInstanceId : option string;
  body_workflowStatus : option string;
}.

Definition failure (code : Z) (error : string) (details : option string)
  : Response :=
  mkResponse code (Some error) details None None None None None None None.

(** [app.post ('/reserve', ...)] on whatever the request carries; the
    arguments are those of [CfReserve.post_reserve]. *)
Definition post_reserve (json : CfReserve.Thrown + Body) (uuid : string)
    (created : CfReserve.Thrown + string)
    (instanceStatus : CfReserve.Thrown + string)
  : option (string * Params) * Response :=
  match json with
  | inl error =>
      (None, failure 500 "Failed to create reservation"
               (Some (CfReserve.details_of error)))
  | inr null_body =>
      (None, failure 500 "Failed to create reservation"
               (Some (CfReserve.details_of
                        (CfReserve.ErrorObject NULL_BODY_MESSAGE))))
  | inr (value_body seatId userId) =>
      if falsy seatId then
        (None, failure 400 "seatId is required" None)
      else
        let reservationId := uuid in
        let params :=
          {| param_reservationId := reservationId;
             param_seatId := seatId;
             param_userId := userId |} in
        (Some (reservationId, params),
         match created with
         | inl error =>
             failure 500 "Failed to create reservation"
               (Some (CfReserve.details_of error))
         | inr instance_id =>
             match instanceStatus with
             | inl error =>
                 failure 500 "Failed to create reservation"
                   (Some (CfReserve.details_of error))
             | inr status =>
                 mkResponse 201 None None
                   (Some reservationId) (Some seatId) (Some "held")
                   (Some "Reservation created with 15-minute hold. Please confirm before expiration.")
                   (Some "15 minutes")
                   (Some instance_id)
                   (Some status)
             end
         end)
  end.

(** The workflow instance that runs after the route has answered: the one
    the route asked for, when [create] returned. *)
Definition started (json : CfReserve.Thrown + Body) (uuid : string)
    (created : CfReserve.Thrown + string)
    (instanceStatus : CfReserve.Thrown + string) : option Params :=
  match (post_reserve json uuid created instanceStatus).1, created with
  | Some (_, params), inr _ => Some params
  | _, _ => None
  end.

(** A body of the type the route declares,
    [{ seatId: string; userId?: string }], among all bodies. *)
Definition of_text (value : option string) : Property :=
  match value with
  | Some s => js_text s
  | None => js_absent
  end.

Definition typed (body : CfReserve.ReserveBody) : Body :=
  value_body (of_text (CfReserve.body_seatId body))
    (of_text (CfReserve.body_userId body)).

Definition typed_params (params : CfWorkflow.ReservationParams) : Params :=
  {| param_reservationId := CfWorkflow.param_reservationId params;
     param_seatId := js_text (CfWorkflow.param_seatId params);
     param_userId := of_text (CfWorkflow.param_userId params) |}.

Definition typed_response (r : CfReserve.ReserveResponse) : Response :=
  {| http_status := CfReserve.http_status r;
     body_error := CfReserve.body_error r;
     body_details := CfReserve.body_details r;
     body_reservationId := CfReserve.body_reservationId r;
     body_seatId := js_text <$> CfReserve.body_seat r;
     body_status := CfReserve.body_status r;
     body_message := CfReserve.body_message r;
     body_expiresIn := CfReserve.body_expiresIn r;
     body_workflowInstanceId := CfReserve.body_workflowInstanceId r;
     body_workflowStatus := CfReserve.body_workflowStatus r |}.

End CfReserveAny.

(** ** Sequences of calls *)

(** The reservation a call is sent to. *)
Definition call_target (c : Call) : string :=
  match c with
  | Confirm id _ _ => id
  | Finalize id _ => id
  end.

(** The first call of a sequence that is sent to [id]. *)
Fixpoint first_call_on (id : string) (cs : list Call) : option Call :=
  match cs with
  | [] => None
  | c :: cs =>
      if decide (call_target c = id) then Some c else first_call_on id cs
  end.

(** What one call makes of a held reservation. *)
Definition outcome_of (r : ReservationData) (c : option Call)
  : ReservationData :=
  match c with
  | None => r
  | Some (Confirm _ tCheck tStamp) =>
      if tCheck >? expiresAt r then expiredData r tStamp
      else confirmedData r tStamp
  | Some (Finalize _ now) => expiredData r now
  end.

(** The stamps of a reservation agree with its status: [confirmedAt] is set
    on a confirmed reservation only, [expiredAt] on an expired one only. *)
Definition well_stamped (r : ReservationData) : Prop :=
  match status r with
  | confirmed => is_Some (confirmedAt r) /\ expiredAt r = None
  | expired => confirmedAt r = None /\ is_Some (expiredAt r)
  | _ => confirmedAt r = None /\ expiredAt r = None
  end.

Definition store_well_stamped (kv : KV) : Prop :=
  forall id r, KV_get kv id = Some r -> well_stamped r.

(** Every entry of the namespace was written with the audit lifetime. *)
Definition all_audited (kv : KV) : Prop :=
  forall key e, kv !! key = Some e -> expirationTtl e = Some AUDIT_TTL.

(** ** Calls that overlap

    A confirm and the finalize step await their [KV.get] and go on from what
    it answered; between the get of a call and its put, other calls may read
    and write the namespace. *)

(** The confirm route once its get has answered [currentData]. *)
Definition confirm_after_get (reservationId : string)
    (currentData : option ReservationData) (tCheck tStamp : Z) (kv : KV)
  : KV * CfApi.Response :=
  match currentData with
  | None =>
      (kv, CfApi.error_response 404 "Reservation not found"
             (Some reservationId) None)
  | Some reservationData =>
      match status reservationData with
      | confirmed =>
          (kv, CfApi.message_response 200 "Reservation is already confirmed"
                 reservationData)
      | expired =>
          (kv, CfApi.error_response 410
                 "Reservation has expired and cannot be confirmed"
                 None (Some reservationData))
      | pending =>
          (kv, CfApi.error_response 400
                 ("Reservation cannot be confirmed from status: "
                    +:+ status_text (status reservationData))
                 None (Some reservationData))
      | held =>
          if tCheck >? expiresAt reservationData then
            let expiredData := expiredData reservationData tStamp in
            (KV_put reservationId expiredData None kv,
             CfApi.error_response 410
               "Reservation has expired (confirmation time exceeded)"
               None (Some expiredData))
          else
            let confirmedData := confirmedData reservationData tStamp in
            (KV_put reservationId confirmedData (Some AUDIT_TTL) kv,
             CfApi.message_response 200 "Reservation confirmed successfully"
               confirmedData)
      end
  end.

(** The finalize step once its get has answered [currentData]. *)
Definition finalize_after_get (reservationId : string)
    (currentData : option ReservationData) (now : Z) (kv : KV)
  : KV * CfWorkflow.FinalizeResult :=
  match currentData with
  | None => (kv, CfWorkflow.not_found)
  | Some reservationData =>
      match status reservationData with
      | confirmed => (kv, CfWorkflow.status_is confirmed)
      | held =>
          (KV_put reservationId (expiredData reservationData now)
             (Some AUDIT_TTL) kv,
           CfWorkflow.status_is expired)
      | other => (kv, CfWorkflow.status_is other)
      end
  end.

(** What a call leaves of the namespace [kv] it finds when it goes on from
    the answer of its get.  A confirm without an id returns before its get. *)
Definition after_get (c : Call) (currentData : option ReservationData)
    (kv : KV) : KV :=
  match c with
  | Confirm id tCheck tStamp =>
      if decide (id = "") then kv
      else (confirm_after_get id currentData tCheck tStamp kv).1
  | Finalize id now => (finalize_after_get id currentData now kv).1
  end.

(** The calls are numbered by their place in a list.  [Reads n]: call [n]
    gets.  [Finishes n]: call [n] goes on from what it read to its end. *)
Inductive Event : Set :=
| Reads (n : nat)
| Finishes (n : nat).

#[global] Instance Event_eq_dec : EqDecision Event.
Proof. solve_decision. Defined.

(** The namespace, and what the calls in flight have read. *)
Definition step (cs : list Call) (e : Event)
    (st : KV * gmap nat (option ReservationData))
  : KV * gmap nat (option ReservationData) :=
  match e with
  | Reads n =>
      match cs !! n with
      | Some c => (st.1, <[n := KV_get st.1 (call_target c)]> st.2)
      | None => st
      end
  | Finishes n =>
      match cs !! n, st.2 !! n with
      | Some c, Some currentData =>
          (after_get c currentData st.1, delete n st.2)
      | _, _ => st
      end
  end.

Definition run_events_from (cs : list Call) (es : list Event)
    (st : KV * gmap nat (option ReservationData))
  : KV * gmap nat (option ReservationData) :=
  foldl (fun st e => step cs e st) st es.

Definition run_events (cs : list Call) (es : list Event) (kv : KV) : KV :=
  (run_events_from cs es (kv, ∅)).1.

(** The calls served one at a time, in the order of the list. *)
Definition serial_from (first count : nat) : list Event :=
  flat_map (fun n => [Reads n; Finishes n]) (seq first count).

Definition serial (cs : list Call) : list Event :=
  serial_from 0 (length cs).

(** [r'] is the hold [r] or what one of the calls sent to [id] makes of it. *)
Definition written_by (cs : list Call) (id : string)
    (r r' : ReservationData) : Prop :=
  exists n c,
    cs !! n = Some c /\ call_target c = id /\ r' = outcome_of r (Some c).

Definition made_of (cs : list Call) (id : string)
    (r r' : ReservationData) : Prop :=
  r' = r \/ written_by cs id r r'.

(** The reservation under [id] is still the hold [r], and so is what every
    call in flight that was sent to [id] has read. *)
Definition untouched (cs : list Call) (id : string) (r : ReservationData)
    (st : KV * gmap nat (option ReservationData)) : Prop :=
  KV_get st.1 id = Some r /\
  forall n c currentData,
    cs !! n = Some c -> call_target c = id ->
    st.2 !! n = Some currentData -> currentData = Some r.

(** The reservation under [id] has been written by one of the calls, and
    every call in flight that was sent to [id] has read the hold or what
    one of the calls made of it. *)
Definition settled (cs : list Call) (id : string) (r : ReservationData)
    (st : KV * gmap nat (option ReservationData)) : Prop :=
  (exists r', KV_get st.1 id = Some r' /\ written_by cs id r r') /\
  forall n c currentData,
    cs !! n = Some c -> call_target c = id ->
    st.2 !! n = Some currentData ->
    exists r', currentData = Some r' /\ made_of cs id r r'.

(** Call [k], sent to [id], has read the hold and not finished: when it
    finishes, the reservation is written, if it was not before. *)
Definition awaiting (cs : list Call) (id : string) (r : ReservationData)
    (k : nat) (st : KV * gmap nat (option ReservationData)) : Prop :=
  settled cs id r st \/
  (untouched cs id r st /\ st.2 !! k = Some (Some r)).

(** A run of the Cloudflare workflow with the calls that overlap it: the
    create-hold step, the events [before] the finalize step gets, the
    events [during] the finalize step, between its get and its put.  The
    finalize step of the run is the call after the calls [cs]. *)
Definition run_overlapped (event : CfWorkflow.ReservationParams)
    (s : Schedule) (cs : list Call) (before during : list Event) (kv : KV)
  : KV :=
  let reservationId := CfWorkflow.param_reservationId event in
  let kv := (CfWorkflow.create_hold event (t_create s) kv).1 in
  run_events (cs ++ [Finalize reservationId (t_finalize s)])
    (before ++ Reads (length cs) :: during ++ [Finishes (length cs)]) kv.

(** * Properties *)

(** ** The KV namespace *)

Lemma KV_get_put_eq (kv : KV) key v ttl :
  KV_get (KV_put key v ttl kv) key = Some v.
Proof. unfold KV_get, KV_put. by rewrite lookup_insert_eq. Qed.

Lemma KV_get_put_ne (kv : KV) key key' v ttl :
  key <> key' -> KV_get (KV_put key v ttl kv) key' = KV_get kv key'.
Proof. intros Hne. unfold KV_get, KV_put. by rewrite lookup_insert_ne. Qed.

Lemma KV_get_Some (kv : KV) key r :
  KV_get kv key = Some r <-> exists e, kv !! key = Some e /\ value e = r.
Proof.
  unfold KV_get. destruct (kv !! key) as [e|]; simpl; split.
  - intros [= <-]. by exists e.
  - by intros (e' & [= <-] & <-).
  - discriminate.
  - by intros (e' & [=] & _).
Qed.

(** ** The branches of the two writers *)

Section Branches.
Import CfWorkflow CfApi.
Variables (kv : KV) (id : string) (r : ReservationData).
Hypothesis Hget : KV_get kv id = Some r.

Lemma finalize_held now :
  status r = held ->
  finalize_reservation id now kv
  = (KV_put id (expiredData r now) (Some AUDIT_TTL) kv, status_is expired).
Proof. intros Hs. unfold finalize_reservation. by rewrite Hget, Hs. Qed.

Lemma finalize_not_held now :
  status r <> held ->
  finalize_reservation id now kv = (kv, status_is (status r)).
Proof.
  intros Hs. unfold finalize_reservation. rewrite Hget.
  by destruct (status r).
Qed.

Hypothesis Hid : id <> "".

Lemma confirm_found tCheck tStamp :
  post_confirm id tCheck tStamp kv
  = match status r with
    | confirmed =>
        (kv, message_response 200 "Reservation is already confirmed" r)
    | expired =>
        (kv, error_response 410
               "Reservation has expired and cannot be confirmed"
               None (Some r))
    | pending =>
        (kv, error_response 400
               ("Reservation cannot be confirmed from status: "
                  +:+ status_text (status r))
               None (Some r))
    | held =>
        if tCheck >? expiresAt r then
          (KV_put id (expiredData r tStamp) None kv,
           error_response 410
             "Reservation has expired (confirmation time exceeded)"
             None (Some (expiredData r tStamp)))
        else
          (KV_put id (confirmedData r tStamp) (Some AUDIT_TTL) kv,
           message_response 200 "Reservation confirmed successfully"
             (confirmedData r tStamp))
    end.
Proof.
  unfold post_confirm. rewrite decide_False by exact Hid. by rewrite Hget.
Qed.

Lemma confirm_held_late tCheck tStamp :
  status r = held -> expiresAt r < tCheck ->
  post_confirm id tCheck tStamp kv
  = (KV_put id (expiredData r tStamp) None kv,
     error_response 410
       "Reservation has expired (confirmation time exceeded)"
       None (Some (expiredData r tStamp))).
Proof.
  intros Hs Hlate. rewrite confirm_found, Hs.
  by rewrite (proj2 (Z.gtb_gt _ _)) by lia.
Qed.

Lemma confirm_held_in_window tCheck tStamp :
  status r = held -> tCheck <= expiresAt r ->
  post_confirm id tCheck tStamp kv
  = (KV_put id (confirmedData r tStamp) (Some AUDIT_TTL) kv,
     message_response 200 "Reservation confirmed successfully"
       (confirmedData r tStamp)).
Proof.
  intros Hs Hin. rewrite confirm_found, Hs.
  destruct (Z.gtb_spec tCheck (expiresAt r)); [lia | done].
Qed.

End Branches.

(** ** Finalize *)

(** C1.  The finalize step follows the contract of the reservation state
    machine.  On the Cloudflare workflow, for the record [r] it reads: when
    [r] is confirmed the step writes nothing and reports confirmed; when [r]
    is held the step stores [r] as expired with [expiredAt] the time of the
    step, and reports expired; when [r] is already expired the step writes
    nothing.  On the Lambda function the reservation that reaches the
    finalize step is the held one of the first step, and the step returns it
    expired, with [expiredAt] the time of the step. *)
Theorem finalize_contract :
  (forall (kv : KV) (id : string) (now : Z) (r : ReservationData),
     KV_get kv id = Some r ->
     (status r = confirmed ->
        CfWorkflow.finalize_reservation id now kv
        = (kv, CfWorkflow.status_is confirmed)) /\
     (status r = held ->
        exists r',
          CfWorkflow.finalize_reservation id now kv
          = (KV_put id r' (Some AUDIT_TTL) kv, CfWorkflow.status_is expired) /\
          KV_get (CfWorkflow.finalize_reservation id now kv).1 id = Some r' /\
          r' = expiredData r now /\
          status r' = expired /\ expiredAt r' = Some now) /\
     (status r = expired ->
        CfWorkflow.finalize_reservation id now kv
        = (kv, CfWorkflow.status_is expired))) /\
  (forall (event : AwsLambda.ReservationEvent) (uuid : string) (s : Schedule),
     let reservation := AwsLambda.step1 event uuid (t_create s) in
     let finalResult := AwsLambda.reservation (AwsLambda.handler event uuid s) in
     status reservation = held /\
     finalResult = expiredData reservation (t_finalize s) /\
     status finalResult = expired /\
     expiredAt finalResult = Some (t_finalize s)).
Proof.
  split.
  - intros kv id now r Hget. repeat split.
    + intros Hs. rewrite (finalize_not_held kv id r Hget) by congruence.
      by rewrite Hs.
    + intros Hs. exists (expiredData r now).
      rewrite (finalize_held kv id r Hget) by done. simpl.
      by rewrite KV_get_put_eq.
    + intros Hs. rewrite (finalize_not_held kv id r Hget) by congruence.
      by rewrite Hs.
  - intros event uuid s. simpl. done.
Qed.

Lemma finalize_contract_witness :
  CfWorkflow.finalize_reservation "r-1" 900000 (sample_kv sample_confirmed)
  = (sample_kv sample_confirmed, CfWorkflow.status_is confirmed) /\
  (exists r',
     CfWorkflow.finalize_reservation "r-1" 900000 (sample_kv sample_held)
     = (KV_put "r-1" r' (Some AUDIT_TTL) (sample_kv sample_held),
        CfWorkflow.status_is expired) /\
     KV_get
       (CfWorkflow.finalize_reservation "r-1" 900000 (sample_kv sample_held)).1
       "r-1" = Some r' /\
     r' = expiredData sample_held 900000 /\
     status r' = expired /\ expiredAt r' = Some 900000) /\
  CfWorkflow.finalize_reservation "r-1" 900000 (sample_kv sample_expired)
  = (sample_kv sample_expired, CfWorkflow.status_is expired).
Proof.
  pose proof (proj1 finalize_contract) as H.
  split; [| split].
  - refine (proj1 (H (sample_kv sample_confirmed) "r-1" 900000
                     sample_confirmed _) _);
      vm_compute; reflexivity.
  - refine (proj1 (proj2 (H (sample_kv sample_held) "r-1" 900000
                            sample_held _)) _);
      vm_compute; reflexivity.
  - refine (proj2 (proj2 (H (sample_kv sample_expired) "r-1" 900000
                            sample_expired _)) _);
      vm_compute; reflexivity.
Defined.

(** ** Confirm *)

(** C2.  A confirm that reads a held reservation after its [expiresAt] stores
    the reservation as expired, with [expiredAt] stamped, and the reservation
    it answers with is that expired one: its status is not confirmed. *)
Theorem confirm_after_deadline_expires
    (kv : KV) (id : string) (tCheck tStamp : Z) (r : ReservationData) :
  id <> "" ->
  KV_get kv id = Some r ->
  status r = held ->
  expiresAt r < tCheck ->
  exists r',
    KV_get (CfApi.post_confirm id tCheck tStamp kv).1 id = Some r' /\
    CfApi.body_reservation (CfApi.post_confirm id tCheck tStamp kv).2
    = Some r' /\
    r' = expiredData r tStamp /\
    status r' = expired /\
    expiredAt r' = Some tStamp /\
    status r' <> confirmed.
Proof.
  intros Hid Hget Hs Hlate. exists (expiredData r tStamp).
  rewrite (confirm_held_late kv id r Hget Hid) by done. simpl.
  rewrite KV_get_put_eq. by repeat split.
Qed.

Lemma confirm_after_deadline_expires_witness :
  exists r',
    KV_get (CfApi.post_confirm "r-1" 900001 900001 (sample_kv sample_held)).1
      "r-1" = Some r' /\
    CfApi.body_reservation
      (CfApi.post_confirm "r-1" 900001 900001 (sample_kv sample_held)).2
    = Some r' /\
    r' = expiredData sample_held 900001 /\
    status r' = expired /\
    expiredAt r' = Some 900001 /\
    status r' <> confirmed.
Proof.
  apply (confirm_after_deadline_expires (sample_kv sample_held) "r-1"
           900001 900001 sample_held).
  - discriminate.
  - vm_compute. reflexivity.
  - reflexivity.
  - vm_compute. reflexivity.
Defined.

(** C4.  A confirm that reads a held reservation at or before its
    [expiresAt] stores it as confirmed, with [confirmedAt] the time the
    route stamps, and answers 200 with the confirmed reservation.  The route
    reads the clock for the comparison and again for the stamp; at one call
    time [now] for both, [confirmedAt] is [now]. *)
Theorem confirm_in_window_confirms
    (kv : KV) (id : string) (tCheck tStamp : Z) (r : ReservationData) :
  id <> "" ->
  KV_get kv id = Some r ->
  status r = held ->
  tCheck <= expiresAt r ->
  exists r',
    CfApi.post_confirm id tCheck tStamp kv
    = (KV_put id r' (Some AUDIT_TTL) kv,
       CfApi.message_response 200 "Reservation confirmed successfully" r') /\
    KV_get (CfApi.post_confirm id tCheck tStamp kv).1 id = Some r' /\
    r' = confirmedData r tStamp /\
    status r' = confirmed /\
    confirmedAt r' = Some tStamp.
Proof.
  intros Hid Hget Hs Hin. exists (confirmedData r tStamp).
  rewrite (confirm_held_in_window kv id r Hget Hid) by done. simpl.
  rewrite KV_get_put_eq. by repeat split.
Qed.

Lemma confirm_in_window_confirms_witness :
  exists r',
    CfApi.post_confirm "r-1" 5000 5000 (sample_kv sample_held)
    = (KV_put "r-1" r' (Some AUDIT_TTL) (sample_kv sample_held),
       CfApi.message_response 200 "Reservation confirmed successfully" r') /\
    KV_get (CfApi.post_confirm "r-1" 5000 5000 (sample_kv sample_held)).1 "r-1"
    = Some r' /\
    r' = confirmedData sample_held 5000 /\
    status r' = confirmed /\
    confirmedAt r' = Some 5000.
Proof.
  apply (confirm_in_window_confirms (sample_kv sample_held) "r-1"
           5000 5000 sample_held).
  - discriminate.
  - vm_compute. reflexivity.
  - reflexivity.
  - vm_compute. discriminate.
Defined.

(** ** What a call writes *)

(** A call leaves the namespace as it is, or rewrites one held reservation
    as confirmed or as expired under its own key. *)
Lemma apply_call_cases (c : Call) (kv : KV) :
  apply_call c kv = kv \/
  exists id r t ttl,
    KV_get kv id = Some r /\ status r = held /\
    (apply_call c kv = KV_put id (confirmedData r t) ttl kv \/
     apply_call c kv = KV_put id (expiredData r t) ttl kv).
Proof.
  destruct c as [id tCheck tStamp | id now]; simpl.
  - unfold CfApi.post_confirm. case_decide; [by left |].
    destruct (KV_get kv id) as [r|] eqn:Hget; [| by left].
    destruct (status r) eqn:Hs; try by left.
    right. exists id, r, tStamp.
    destruct (tCheck >? expiresAt r); simpl; eauto 10.
  - unfold CfWorkflow.finalize_reservation.
    destruct (KV_get kv id) as [r|] eqn:Hget; [| by left].
    destruct (status r) eqn:Hs; try by left.
    right. exists id, r, now, (Some AUDIT_TTL). simpl. eauto.
Qed.

Lemma apply_call_terminal (c : Call) (kv : KV) (id : string) (e : KVEntry) :
  kv !! id = Some e ->
  status (value e) = confirmed \/ status (value e) = expired ->
  apply_call c kv !! id = Some e.
Proof.
  intros He Hterm.
  destruct (apply_call_cases c kv) as [-> | (id' & r & t & ttl & Hget & Hs & Hw)];
    [done |].
  assert (id' <> id) as Hne.
  { intros ->. unfold KV_get in Hget. rewrite He in Hget. simpl in Hget.
    injection Hget as <-. destruct Hterm; congruence. }
  destruct Hw as [-> | ->]; unfold KV_put; by rewrite lookup_insert_ne.
Qed.

Lemma apply_calls_terminal (cs : list Call) (kv : KV) (id : string)
    (e : KVEntry) :
  kv !! id = Some e ->
  status (value e) = confirmed \/ status (value e) = expired ->
  apply_calls cs kv !! id = Some e.
Proof.
  revert kv. induction cs as [| c cs IH]; intros kv He Hterm; [done |].
  unfold apply_calls. simpl. apply IH; [| done].
  by apply apply_call_terminal.
Qed.

(** C3.  Terminal states are absorbing.  For a stored reservation [r] that is
    confirmed or expired: a confirm leaves the namespace as it is, answering
    200 with [r] itself when [r] is confirmed and an error (410) carrying [r]
    when [r] is expired; a finalize leaves the namespace as it is; and after
    any sequence of confirm and finalize calls, on this or on other
    reservations, the stored entry is still the same. *)
Theorem terminal_states_absorbing
    (kv : KV) (id : string) (r : ReservationData) :
  id <> "" ->
  KV_get kv id = Some r ->
  status r = confirmed \/ status r = expired ->
  (forall tCheck tStamp,
     (CfApi.post_confirm id tCheck tStamp kv).1 = kv /\
     (status r = confirmed ->
        (CfApi.post_confirm id tCheck tStamp kv).2
        = CfApi.message_response 200 "Reservation is already confirmed" r) /\
     (status r = expired ->
        (CfApi.post_confirm id tCheck tStamp kv).2
        = CfApi.error_response 410
            "Reservation has expired and cannot be confirmed" None (Some r))) /\
  (forall now,
     CfWorkflow.finalize_reservation id now kv
     = (kv, CfWorkflow.status_is (status r))) /\
  (forall cs : list Call,
     apply_calls cs kv !! id = kv !! id /\
     KV_get (apply_calls cs kv) id = Some r).
Proof.
  intros Hid Hget Hterm. split; [| split].
  - intros tCheck tStamp. rewrite (confirm_found kv id r Hget Hid).
    destruct Hterm as [Hs | Hs]; rewrite Hs; repeat split; congruence.
  - intros now. apply (finalize_not_held kv id r Hget).
    destruct Hterm; congruence.
  - intros cs. apply KV_get_Some in Hget as (e & He & <-).
    assert (apply_calls cs kv !! id = Some e) as Hcs
      by by apply apply_calls_terminal.
    split; [congruence |]. unfold KV_get. by rewrite Hcs.
Qed.

Lemma terminal_states_absorbing_witness :
  (CfApi.post_confirm "r-1" 6000 6000 (sample_kv sample_confirmed)).1
  = sample_kv sample_confirmed /\
  (CfApi.post_confirm "r-1" 6000 6000 (sample_kv sample_confirmed)).2
  = CfApi.message_response 200 "Reservation is already confirmed"
      sample_confirmed /\
  CfWorkflow.finalize_reservation "r-1" 900000 (sample_kv sample_confirmed)
  = (sample_kv sample_confirmed, CfWorkflow.status_is confirmed) /\
  KV_get
    (apply_calls [Finalize "r-1" 900000; Confirm "r-1" 900001 900001]
       (sample_kv sample_confirmed)) "r-1"
  = Some sample_confirmed.
Proof.
  assert ("r-1" <> "") as Hid by discriminate.
  assert (KV_get (sample_kv sample_confirmed) "r-1" = Some sample_confirmed)
    as Hget by (vm_compute; reflexivity).
  assert (status sample_confirmed = confirmed \/
          status sample_confirmed = expired) as Hterm by (left; reflexivity).
  destruct (terminal_states_absorbing (sample_kv sample_confirmed) "r-1"
              sample_confirmed Hid Hget Hterm) as (Hc & Hf & Hcs).
  destruct (Hc 6000 6000) as (Hkv & Hok & _).
  split; [| split; [| split]].
  - exact Hkv.
  - apply Hok. reflexivity.
  - exact (Hf 900000).
  - exact (proj2 (Hcs _)).
Defined.

(** ** Frame *)

(** C8.  A confirm or a finalize, whatever reservation it is sent to, leaves
    every stored reservation with its [reservationId], [seatId], [userId],
    [createdAt] and [expiresAt]; the record it leaves is the one it found, or
    the one it found with only the status and the timestamp of the new
    terminal status written ([confirmedAt] for confirmed, [expiredAt] for
    expired).  The finalize step of the Lambda function keeps the same
    fields of the reservation of its first step. *)
Theorem transitions_preserve_identity
    (c : Call) (kv : KV) (id : string) (r : ReservationData) :
  KV_get kv id = Some r ->
  (exists r',
     KV_get (apply_call c kv) id = Some r' /\
     same_identity r r' /\
     only_terminal_stamp r r') /\
  (forall t,
     same_identity r (confirmedData r t) /\
     expiredAt (confirmedData r t) = expiredAt r /\
     same_identity r (expiredData r t) /\
     confirmedAt (expiredData r t) = confirmedAt r) /\
  (forall event uuid s,
     same_identity (AwsLambda.step1 event uuid (t_create s))
       (AwsLambda.reservation (AwsLambda.handler event uuid s))).
Proof.
  intros Hget. split; [| split].
  - destruct (apply_call_cases c kv)
      as [-> | (id' & r0 & t & ttl & Hget0 & Hs & Hw)].
    { exists r. repeat split; [done | by left]. }
    destruct (decide (id' = id)) as [-> | Hne].
    + assert (r0 = r) as -> by congruence.
      destruct Hw as [-> | ->]; rewrite KV_get_put_eq;
        eexists; (split; [reflexivity |]); (split; [by repeat split |]).
      * right; left. by exists t.
      * right; right. by exists t.
    + exists r. destruct Hw as [-> | ->];
        rewrite KV_get_put_ne by done; repeat split; (done || by left).
  - intros t. by repeat split.
  - intros event uuid s. by repeat split.
Qed.

Lemma transitions_preserve_identity_witness :
  exists r',
    KV_get (apply_call (Confirm "r-1" 5000 5000) (sample_kv sample_held)) "r-1"
    = Some r' /\
    same_identity sample_held r' /\
    only_terminal_stamp sample_held r'.
Proof.
  refine (proj1 (transitions_preserve_identity (Confirm "r-1" 5000 5000)
                   (sample_kv sample_held) "r-1" sample_held _)).
  vm_compute. reflexivity.
Defined.

(** ** Create hold *)

(** C6.  The create-hold step makes a held reservation for the seat and the
    user it was given, created at the time [now] of the step, with
    [expiresAt] fifteen minutes ([15 * 60 * 1000] ms) after [createdAt].  The
    Cloudflare step also stores it under its [reservationId]; the Lambda step
    returns it. *)
Theorem create_hold_held :
  (forall (payload : CfWorkflow.ReservationParams) (now : Z) (kv : KV),
     let r := (CfWorkflow.create_hold payload now kv).2 in
     status r = held /\
     createdAt r = now /\
     expiresAt r = createdAt r + 15 * 60 * 1000 /\
     reservationId r = CfWorkflow.param_reservationId payload /\
     seatId r = CfWorkflow.param_seatId payload /\
     userId r = CfWorkflow.param_userId payload /\
     confirmedAt r = None /\ expiredAt r = None /\
     KV_get (CfWorkflow.create_hold payload now kv).1
       (CfWorkflow.param_reservationId payload) = Some r) /\
  (forall (event : AwsLambda.ReservationEvent) (uuid : string) (now : Z),
     let r := AwsLambda.step1 event uuid now in
     status r = held /\
     createdAt r = now /\
     expiresAt r = createdAt r + 15 * 60 * 1000 /\
     reservationId r = uuid /\
     seatId r = AwsLambda.event_seatId event /\
     userId r = AwsLambda.event_userId event /\
     confirmedAt r = None /\ expiredAt r = None).
Proof.
  split.
  - intros payload now kv. simpl. rewrite KV_get_put_eq. by repeat split.
  - intros event uuid now. by repeat split.
Qed.

(** ** The wait *)

(** The sleep of the Cloudflare workflow is as long as the hold. *)
Lemma cf_sleep_is_hold : CfWorkflow.wait_for_confirmation = HOLD_MS.
Proof. reflexivity. Qed.

(** On the Cloudflare workflow the finalize step does not run before the
    [expiresAt] of the reservation the create-hold step made. *)
Lemma cf_finalize_not_before_expiry
    (event : CfWorkflow.ReservationParams) (s : Schedule) (kv : KV) :
  wait_respected CfWorkflow.wait_for_confirmation s ->
  expiresAt (CfWorkflow.create_hold event (t_create s) kv).2 <= t_finalize s.
Proof.
  unfold wait_respected. rewrite cf_sleep_is_hold. simpl. lia.
Qed.

(** C5.  The wait of the Lambda function is thirty seconds, shorter than the
    fifteen-minute hold: resumed as soon as the wait allows, its finalize
    step runs at [createdAt + 30000], before the [expiresAt] of the
    reservation, and expires it then. *)
Theorem aws_finalize_before_expiry :
  AwsLambda.wait_ms = 30 * 1000 /\
  AwsLambda.wait_ms < HOLD_MS /\
  forall t : Z,
    let s := earliest_resume t in
    let created := AwsLambda.step1 sample_event "uuid-1" (t_create s) in
    let final := AwsLambda.reservation
                   (AwsLambda.handler sample_event "uuid-1" s) in
    wait_respected AwsLambda.wait_ms s /\
    expiresAt created = t + 900000 /\
    t_finalize s = t + 30000 /\
    t_finalize s < expiresAt created /\
    status final = expired /\
    expiredAt final = Some (t + 30000).
Proof.
  split; [reflexivity |]. split; [reflexivity |].
  intros t. unfold wait_respected. simpl.
  change AwsLambda.wait_ms with 30000. change HOLD_MS with 900000.
  repeat split; lia.
Qed.

(** ** Errors of confirm *)

(** C7.  A confirm fails with [AlreadyExpired] exactly when the reservation
    it reads is expired; the error then carries that reservation.  In every
    other case it returns a reservation and not that error: the confirmed
    one for a reservation held and read at or before its [expiresAt], the
    reservation as the route has just expired it for one held and read
    later (an answer 410 with another text), the reservation itself for one
    already confirmed. *)
Theorem confirm_AlreadyExpired_iff
    (kv : KV) (id : string) (tCheck tStamp : Z) :
  let response := (CfApi.post_confirm id tCheck tStamp kv).2 in
  (CfApi.AlreadyExpired response = true <->
   exists r, id <> "" /\ KV_get kv id = Some r /\ status r = expired) /\
  (forall r,
     id <> "" -> KV_get kv id = Some r ->
     (CfApi.AlreadyExpired response = true <-> status r = expired) /\
     (status r = expired ->
      CfApi.body_reservation response = Some r) /\
     (status r = held -> tCheck <= expiresAt r ->
      CfApi.AlreadyExpired response = false /\
      CfApi.body_reservation response = Some (confirmedData r tStamp)) /\
     (status r = held -> expiresAt r < tCheck ->
      CfApi.AlreadyExpired response = false /\
      CfApi.body_reservation response = Some (expiredData r tStamp) /\
      CfApi.http_status response = 410 /\
      CfApi.body_error response
      = Some "Reservation has expired (confirmation time exceeded)") /\
     (status r = confirmed ->
      CfApi.AlreadyExpired response = false /\
      CfApi.body_reservation response = Some r)).
Proof.
  simpl. split.
  - split.
    + unfold CfApi.post_confirm. case_decide as Hid; [discriminate |].
      destruct (KV_get kv id) as [r|] eqn:Hget; [| discriminate].
      destruct (status r) eqn:Hs; try discriminate.
      * destruct (tCheck >? expiresAt r); discriminate.
      * intros _. by exists r.
    + intros (r & Hid & Hget & Hs).
      by rewrite (confirm_found kv id r Hget Hid), Hs.
  - intros r Hid Hget. rewrite (confirm_found kv id r Hget Hid).
    split; [| split; [| split; [| split]]].
    + destruct (status r); [| destruct (tCheck >? expiresAt r) | |];
        simpl; split; (done || discriminate).
    + by intros ->.
    + intros -> Hin.
      by destruct (Z.gtb_spec tCheck (expiresAt r)); [lia |].
    + intros -> Hlate. by rewrite (proj2 (Z.gtb_gt _ _)) by lia.
    + by intros ->.
Qed.

Lemma confirm_AlreadyExpired_iff_witness :
  (CfApi.AlreadyExpired
     (CfApi.post_confirm "r-1" 900001 900001 (sample_kv sample_expired)).2
   = true <-> status sample_expired = expired) /\
  CfApi.body_reservation
    (CfApi.post_confirm "r-1" 900001 900001 (sample_kv sample_expired)).2
  = Some sample_expired /\
  (CfApi.AlreadyExpired
     (CfApi.post_confirm "r-1" 900001 900001 (sample_kv sample_held)).2
   = false /\
   CfApi.body_reservation
     (CfApi.post_confirm "r-1" 900001 900001 (sample_kv sample_held)).2
   = Some (expiredData sample_held 900001) /\
   CfApi.http_status
     (CfApi.post_confirm "r-1" 900001 900001 (sample_kv sample_held)).2
   = 410 /\
   CfApi.body_error
     (CfApi.post_confirm "r-1" 900001 900001 (sample_kv sample_held)).2
   = Some "Reservation has expired (confirmation time exceeded)").
Proof.
  assert ("r-1" <> "") as Hid by discriminate.
  assert (KV_get (sample_kv sample_expired) "r-1" = Some sample_expired)
    as Hexpired by (vm_compute; reflexivity).
  assert (KV_get (sample_kv sample_held) "r-1" = Some sample_held)
    as Hheld by (vm_compute; reflexivity).
  destruct (proj2 (confirm_AlreadyExpired_iff (sample_kv sample_expired)
                     "r-1" 900001 900001) sample_expired Hid Hexpired)
    as (Hiff & Hcarried & _).
  destruct (proj2 (confirm_AlreadyExpired_iff (sample_kv sample_held)
                     "r-1" 900001 900001) sample_held Hid Hheld)
    as (_ & _ & _ & Hlate & _).
  split; [exact Hiff |]. split.
  - apply Hcarried. reflexivity.
  - apply Hlate; [reflexivity | vm_compute; reflexivity].
Defined.

(** C9.  A confirm that reads a held reservation after its [expiresAt]
    writes the expired record (status expired, [expiredAt] stamped) and
    answers with an error (410): the namespace is no longer the one it read,
    although the call reports failure. *)
Theorem late_confirm_writes_and_errors
    (kv : KV) (id : string) (tCheck tStamp : Z) (r : ReservationData) :
  id <> "" ->
  KV_get kv id = Some r ->
  status r = held ->
  expiresAt r < tCheck ->
  let kv' := (CfApi.post_confirm id tCheck tStamp kv).1 in
  let response := (CfApi.post_confirm id tCheck tStamp kv).2 in
  kv' = KV_put id (expiredData r tStamp) None kv /\
  KV_get kv' id = Some (expiredData r tStamp) /\
  status (expiredData r tStamp) = expired /\
  expiredAt (expiredData r tStamp) = Some tStamp /\
  kv' <> kv /\
  CfApi.is_error response = true /\
  CfApi.http_status response = 410 /\
  CfApi.body_error response
  = Some "Reservation has expired (confirmation time exceeded)".
Proof.
  intros Hid Hget Hs Hlate. simpl.
  rewrite (confirm_held_late kv id r Hget Hid) by done. simpl.
  rewrite KV_get_put_eq. repeat split.
  intros Heq. pose proof (KV_get_put_eq kv id (expiredData r tStamp) None) as Hnew.
  rewrite Heq, Hget in Hnew. injection Hnew as Hnew.
  rewrite Hnew in Hs. discriminate.
Qed.

Lemma late_confirm_writes_and_errors_witness :
  let kv' := (CfApi.post_confirm "r-1" 900001 900001
                (sample_kv sample_held)).1 in
  let response := (CfApi.post_confirm "r-1" 900001 900001
                     (sample_kv sample_held)).2 in
  kv' = KV_put "r-1" (expiredData sample_held 900001) None
          (sample_kv sample_held) /\
  KV_get kv' "r-1" = Some (expiredData sample_held 900001) /\
  status (expiredData sample_held 900001) = expired /\
  expiredAt (expiredData sample_held 900001) = Some 900001 /\
  kv' <> sample_kv sample_held /\
  CfApi.is_error response = true /\
  CfApi.http_status response = 410 /\
  CfApi.body_error response
  = Some "Reservation has expired (confirmation time exceeded)".
Proof.
  apply (late_confirm_writes_and_errors (sample_kv sample_held) "r-1"
           900001 900001 sample_held).
  - discriminate.
  - vm_compute. reflexivity.
  - reflexivity.
  - vm_compute. reflexivity.
Defined.

(** ** A missing record *)

(** C10.  When the finalize step finds no record under the reservation's key
    it returns [not_found] and leaves the namespace as it is; a run whose
    record is gone when the sleep ends still completes, with the reservation
    of its first step and [not_found] as the results of its steps. *)
Theorem finalize_missing_record :
  (forall (kv : KV) (id : string) (now : Z),
     KV_get kv id = None ->
     CfWorkflow.finalize_reservation id now kv = (kv, CfWorkflow.not_found)) /\
  (forall (event : CfWorkflow.ReservationParams) (s : Schedule)
          (during_sleep : KV -> KV) (kv : KV),
     let created := CfWorkflow.create_hold event (t_create s) kv in
     KV_get (during_sleep created.1) (CfWorkflow.param_reservationId event)
     = None ->
     CfWorkflow.run event s during_sleep kv
     = (during_sleep created.1, (created.2, CfWorkflow.not_found))).
Proof.
  split.
  - intros kv id now Hget. unfold CfWorkflow.finalize_reservation.
    by rewrite Hget.
  - intros event s during_sleep kv created Hget.
    unfold CfWorkflow.run. fold created. destruct created as [kv1 r] eqn:Hc.
    simpl in *. unfold CfWorkflow.finalize_reservation. by rewrite Hget.
Qed.

Lemma finalize_missing_record_witness :
  CfWorkflow.finalize_reservation "r-1" 900001 ∅ = (∅, CfWorkflow.not_found) /\
  CfWorkflow.run sample_params on_time (delete "r-1") ∅
  = (delete "r-1" (CfWorkflow.create_hold sample_params 0 ∅).1,
     ((CfWorkflow.create_hold sample_params 0 ∅).2, CfWorkflow.not_found)).
Proof.
  split.
  - refine (proj1 finalize_missing_record ∅ "r-1" 900001 _).
    vm_compute. reflexivity.
  - refine (proj2 finalize_missing_record sample_params on_time
              (delete "r-1") ∅ _).
    vm_compute. reflexivity.
Defined.

(** ** The race of confirm and finalize *)

(** A confirm that commits in the window wins: the finalize that follows
    keeps the reservation confirmed. *)
Lemma confirm_then_finalize
    (kv : KV) (id : string) (tCheck tStamp now : Z) (r : ReservationData) :
  id <> "" ->
  KV_get kv id = Some r ->
  status r = held ->
  tCheck <= expiresAt r ->
  KV_get (apply_calls [Confirm id tCheck tStamp; Finalize id now] kv) id
  = Some (confirmedData r tStamp).
Proof.
  intros Hid Hget Hs Hin. unfold apply_calls. simpl.
  rewrite (confirm_held_in_window kv id r Hget Hid) by done. simpl.
  rewrite (finalize_not_held _ id (confirmedData r tStamp)); simpl;
    [| apply KV_get_put_eq | discriminate].
  apply KV_get_put_eq.
Qed.

(** A finalize that runs first wins: the confirm that follows fails and the
    reservation stays expired as the finalize step stamped it. *)
Lemma finalize_then_confirm
    (kv : KV) (id : string) (tCheck tStamp now : Z) (r : ReservationData) :
  id <> "" ->
  KV_get kv id = Some r ->
  status r = held ->
  KV_get (apply_calls [Finalize id now; Confirm id tCheck tStamp] kv) id
  = Some (expiredData r now).
Proof.
  intros Hid Hget Hs. unfold apply_calls. simpl.
  rewrite (finalize_held kv id r Hget) by done. simpl.
  rewrite (confirm_found _ id (expiredData r now)); simpl;
    [| apply KV_get_put_eq | done].
  apply KV_get_put_eq.
Qed.

(** ** Scenarios on the Cloudflare workflow *)

(** Hold for seat A1, confirmed five seconds later. *)
Example scenario_confirmed :
  let '(kv, (_, final)) :=
    CfWorkflow.run sample_params on_time
      (apply_calls [Confirm "r-1" 5000 5000]) ∅ in
  KV_get kv "r-1" = Some (confirmedData sample_held 5000) /\
  final = CfWorkflow.status_is confirmed.
Proof. vm_compute. split; reflexivity. Qed.

(** Hold that nobody confirms. *)
Example scenario_expired :
  let '(kv, (created, final)) :=
    CfWorkflow.run sample_params on_time (fun kv => kv) ∅ in
  created = sample_held /\
  KV_get kv "r-1" = Some (expiredData sample_held 900001) /\
  final = CfWorkflow.status_is expired.
Proof. vm_compute. repeat split; reflexivity. Qed.

(** Confirm one second after the deadline, ahead of the finalize step. *)
Example scenario_late_confirm :
  let '(kv, (_, final)) :=
    CfWorkflow.run sample_params on_time
      (apply_calls [Confirm "r-1" 900001 900001]) ∅ in
  KV_get kv "r-1" = Some (expiredData sample_held 900001) /\
  final = CfWorkflow.status_is expired.
Proof. vm_compute. split; reflexivity. Qed.

(** * Further properties of the routes and of the workflow *)

(** ** When confirm writes, and how it answers *)

Lemma KV_put_ne_of_status (kv : KV) id r r' ttl :
  KV_get kv id = Some r -> status r' <> status r -> KV_put id r' ttl kv <> kv.
Proof.
  intros Hget Hs Heq.
  pose proof (KV_get_put_eq kv id r' ttl) as Hnew.
  rewrite Heq, Hget in Hnew. by injection Hnew as ->.
Qed.

(** Splits a classification of an answer into its directions and closes
    each one from the branch the route took. *)
Ltac classify_response :=
  repeat match goal with
         | |- _ /\ _ => split
         | |- _ <-> _ => split
         | |- _ -> _ => intro
         | H : _ /\ _ |- _ => destruct H
         | H : _ \/ _ |- _ => destruct H
         | H : exists _, _ |- _ => destruct H
         end;
  simplify_eq/=; try done; try lia; try congruence; eauto 10 with lia.

(** X1.  A confirm changes the namespace exactly when the id is not empty
    and the reservation it reads is held: with no record, with an empty id
    and on a pending, confirmed or expired reservation it writes nothing. *)
Theorem confirm_writes_iff_held
    (kv : KV) (id : string) (tCheck tStamp : Z) :
  (CfApi.post_confirm id tCheck tStamp kv).1 <> kv <->
  exists r, id <> "" /\ KV_get kv id = Some r /\ status r = held.
Proof.
  split.
  - unfold CfApi.post_confirm. case_decide as Hid; [done |].
    destruct (KV_get kv id) as [r|] eqn:Hget; [| done].
    destruct (status r) eqn:Hs; try done.
    intros _. by exists r.
  - intros (r & Hid & Hget & Hs).
    rewrite (confirm_found kv id r Hget Hid), Hs.
    destruct (tCheck >? expiresAt r); simpl;
      apply (KV_put_ne_of_status kv id r); simpl; congruence.
Qed.

(** X2.  The status code of a confirm tells what it found: 400 for an empty
    id or a pending reservation, 404 (with the id echoed and no reservation)
    when nothing is stored under the id, 200 for a confirmed reservation or a
    held one read at or before its [expiresAt]; the answers without an
    [error] key are the 200 ones. *)
Theorem confirm_status_codes
    (kv : KV) (id : string) (tCheck tStamp : Z) :
  let response := (CfApi.post_confirm id tCheck tStamp kv).2 in
  (CfApi.http_status response = 400 <->
   id = "" \/ exists r, KV_get kv id = Some r /\ status r = pending) /\
  (CfApi.http_status response = 404 <-> id <> "" /\ KV_get kv id = None) /\
  (CfApi.http_status response = 200 <->
   exists r, id <> "" /\ KV_get kv id = Some r /\
     (status r = confirmed \/ (status r = held /\ tCheck <= expiresAt r))) /\
  (CfApi.is_error response = false <-> CfApi.http_status response = 200) /\
  (CfApi.http_status response = 404 ->
   CfApi.body_reservationId response = Some id /\
   CfApi.body_reservation response = None).
Proof.
  simpl. unfold CfApi.post_confirm.
  case_decide as Hid; [| destruct (KV_get kv id) as [r|] eqn:Hget;
    [destruct (status r) eqn:Hs;
       [| destruct (Z.gtb_spec tCheck (expiresAt r)) | |] |]];
    simpl; classify_response.
Qed.

Lemma confirm_status_codes_witness :
  CfApi.body_reservationId (CfApi.post_confirm "r-9" 1 1 ∅).2 = Some "r-9" /\
  CfApi.body_reservation (CfApi.post_confirm "r-9" 1 1 ∅).2 = None.
Proof.
  refine (proj2 (proj2 (proj2 (proj2 (confirm_status_codes ∅ "r-9" 1 1)))) _).
  vm_compute. reflexivity.
Defined.

(** ** Sequences of calls *)

Lemma apply_calls_cons c cs kv :
  apply_calls (c :: cs) kv = apply_calls cs (apply_call c kv).
Proof. reflexivity. Qed.

(** A call writes under the key it is sent to, and nowhere else. *)
Lemma apply_call_other (c : Call) (kv : KV) (id : string) :
  call_target c <> id -> apply_call c kv !! id = kv !! id.
Proof.
  intros Hne. destruct c as [id' tCheck tStamp | id' now]; simpl in *.
  - unfold CfApi.post_confirm. case_decide; [done |].
    destruct (KV_get kv id') as [r|]; [| done].
    destruct (status r); try done.
    destruct (tCheck >? expiresAt r); simpl; unfold KV_put;
      by rewrite lookup_insert_ne.
  - unfold CfWorkflow.finalize_reservation.
    destruct (KV_get kv id') as [r|]; [| done].
    destruct (status r); try done. simpl. unfold KV_put.
    by rewrite lookup_insert_ne.
Qed.

(** A held reservation after a sequence of calls. *)
Lemma held_after_calls
    (cs : list Call) (kv : KV) (id : string) (r : ReservationData) :
  id <> "" ->
  KV_get kv id = Some r ->
  status r = held ->
  KV_get (apply_calls cs kv) id = Some (outcome_of r (first_call_on id cs)).
Proof.
  intros Hid. revert kv. induction cs as [| c cs IH]; intros kv Hget Hs.
  { done. }
  rewrite apply_calls_cons. simpl.
  destruct (decide (call_target c = id)) as [Hc | Hc].
  - assert (KV_get (apply_call c kv) id = Some (outcome_of r (Some c))
            /\ status (outcome_of r (Some c)) <> held) as [Hnew Hterm].
    { destruct c as [id' tCheck tStamp | id' now]; simpl in Hc; subst id';
        simpl.
      - rewrite (confirm_found kv id r Hget Hid), Hs.
        destruct (tCheck >? expiresAt r); simpl;
          by rewrite KV_get_put_eq.
      - rewrite (finalize_held kv id r Hget) by done. simpl.
        by rewrite KV_get_put_eq. }
    apply KV_get_Some in Hnew as (e & He & Hv).
    unfold KV_get. rewrite (apply_calls_terminal cs _ id e He).
    + simpl. by rewrite Hv.
    + rewrite Hv. destruct c as [? tCheck ? | ? ?]; simpl in *;
        [destruct (tCheck >? expiresAt r) |]; simpl; auto.
  - apply IH; [| done]. unfold KV_get. by rewrite apply_call_other.
Qed.

Lemma apply_calls_untargeted (cs : list Call) (kv : KV) (id : string) :
  first_call_on id cs = None ->
  apply_calls cs kv !! id = kv !! id.
Proof.
  revert kv. induction cs as [| c cs IH]; intros kv Hnone; [done |].
  simpl in Hnone. case_decide as Hc; [done |].
  rewrite apply_calls_cons, IH by done. by apply apply_call_other.
Qed.

(** X4.  Calls sent to other reservations leave an entry as it is, value and
    lifetime. *)
Theorem untargeted_entry_untouched
    (cs : list Call) (kv : KV) (id : string) :
  first_call_on id cs = None ->
  apply_calls cs kv !! id = kv !! id.
Proof. apply apply_calls_untargeted. Qed.

Lemma untargeted_entry_untouched_witness :
  apply_calls [Confirm "r-2" 1 1; Finalize "r-3" 2] (sample_kv sample_held)
    !! "r-1"
  = sample_kv sample_held !! "r-1".
Proof.
  apply (untargeted_entry_untouched [Confirm "r-2" 1 1; Finalize "r-3" 2]
           (sample_kv sample_held) "r-1").
  vm_compute. reflexivity.
Defined.

Lemma apply_call_dom (c : Call) (kv : KV) : dom (apply_call c kv) = dom kv.
Proof.
  destruct (apply_call_cases c kv)
    as [-> | (id & r & t & ttl & Hget & _ & Hw)]; [done |].
  apply KV_get_Some in Hget as (e & He & _).
  destruct Hw as [-> | ->]; unfold KV_put; apply dom_insert_lookup_L; eauto.
Qed.

(** X5.  Confirm and finalize calls neither create nor remove a key of the
    namespace. *)
Theorem calls_keep_keys (cs : list Call) (kv : KV) :
  dom (apply_calls cs kv) = dom kv.
Proof.
  revert kv. induction cs as [| c cs IH]; intros kv; [done |].
  by rewrite apply_calls_cons, IH, apply_call_dom.
Qed.

(** X6.  Running the finalize step again, at whatever time, changes nothing
    and returns what the first run returned. *)
Theorem finalize_retry (kv : KV) (id : string) (now now' : Z) :
  CfWorkflow.finalize_reservation id now'
    (CfWorkflow.finalize_reservation id now kv).1
  = CfWorkflow.finalize_reservation id now kv.
Proof.
  unfold CfWorkflow.finalize_reservation at 2 3.
  destruct (KV_get kv id) as [r|] eqn:Hget; simpl.
  2:{ unfold CfWorkflow.finalize_reservation. by rewrite Hget. }
  destruct (status r) eqn:Hs; simpl.
  - by rewrite (finalize_not_held kv id r Hget), Hs by congruence.
  - by rewrite (finalize_not_held _ id (expiredData r now))
      by (apply KV_get_put_eq || done).
  - by rewrite (finalize_not_held kv id r Hget), Hs by congruence.
  - by rewrite (finalize_not_held kv id r Hget), Hs by congruence.
Qed.

(** ** Invariants of the namespace *)

Lemma store_well_stamped_put (kv : KV) id r ttl :
  store_well_stamped kv -> well_stamped r ->
  store_well_stamped (KV_put id r ttl kv).
Proof.
  intros Hkv Hr id' r'. destruct (decide (id = id')) as [<- | Hne].
  - rewrite KV_get_put_eq. by intros [= <-].
  - rewrite KV_get_put_ne by done. apply Hkv.
Qed.

Lemma store_well_stamped_call (c : Call) (kv : KV) :
  store_well_stamped kv -> store_well_stamped (apply_call c kv).
Proof.
  intros Hkv.
  destruct (apply_call_cases c kv)
    as [-> | (id & r & t & ttl & Hget & Hs & Hw)]; [done |].
  pose proof (Hkv id r Hget) as Hr. unfold well_stamped in Hr.
  rewrite Hs in Hr. destruct Hr as [Hc He].
  destruct Hw as [-> | ->]; apply store_well_stamped_put; try done;
    unfold well_stamped; simpl; eauto.
Qed.

(** X7.  The stamps agree with the status, in the whole namespace and for
    good: when every stored reservation has [confirmedAt] set exactly if it
    is confirmed and [expiredAt] set exactly if it is expired, this is still
    so after a create-hold step and after any sequence of confirm and
    finalize calls.  No reservation ends with both stamps. *)
Theorem stamps_agree_with_status (kv : KV) :
  store_well_stamped kv ->
  (forall payload now,
     store_well_stamped (CfWorkflow.create_hold payload now kv).1) /\
  (forall cs, store_well_stamped (apply_calls cs kv)) /\
  (forall cs id r,
     KV_get (apply_calls cs kv) id = Some r ->
     ~ (is_Some (confirmedAt r) /\ is_Some (expiredAt r))).
Proof.
  intros Hkv.
  assert (forall cs, store_well_stamped (apply_calls cs kv)) as Hcs.
  { intros cs. revert kv Hkv. induction cs as [| c cs IH]; intros kv Hkv;
      [done |].
    rewrite apply_calls_cons. by apply IH, store_well_stamped_call. }
  split; [| split; [done |]].
  - intros payload now. simpl. by apply store_well_stamped_put.
  - intros cs id r Hget [[t Hc] [t' He]].
    pose proof (Hcs cs id r Hget) as Hr. unfold well_stamped in Hr.
    destruct (status r); destruct Hr; congruence.
Qed.

Lemma stamps_agree_with_status_witness :
  store_well_stamped
    (apply_calls [Confirm "r-1" 5000 5000; Finalize "r-1" 900000]
       (CfWorkflow.create_hold sample_params 0 ∅).1).
Proof.
  assert (store_well_stamped ∅) as Hempty.
  { intros id r Hget. unfold KV_get in Hget.
    rewrite lookup_empty in Hget. discriminate. }
  pose proof (proj1 (stamps_agree_with_status ∅ Hempty) sample_params 0)
    as Hcreated.
  exact (proj1 (proj2 (stamps_agree_with_status _ Hcreated)) _).
Defined.

Lemma all_audited_put (kv : KV) id r :
  all_audited kv -> all_audited (KV_put id r (Some AUDIT_TTL) kv).
Proof.
  intros Hkv key e. unfold KV_put.
  destruct (decide (id = key)) as [<- | Hne].
  - rewrite lookup_insert_eq. by intros [= <-].
  - rewrite lookup_insert_ne by done. apply Hkv.
Qed.

(** X8.  The lifetime of the entries.  In a namespace whose entries all
    carry the audit lifetime (24 hours), the create-hold step, the finalize
    step and a confirm keep it so, except for the confirm that reads a held
    reservation after its [expiresAt]: the expired record it writes carries
    no lifetime. *)
Theorem audit_lifetime (kv : KV) :
  all_audited kv ->
  (forall payload now,
     all_audited (CfWorkflow.create_hold payload now kv).1) /\
  (forall id now,
     all_audited (CfWorkflow.finalize_reservation id now kv).1) /\
  (forall id tCheck tStamp,
     all_audited (CfApi.post_confirm id tCheck tStamp kv).1 <->
     ~ exists r,
         id <> "" /\ KV_get kv id = Some r /\
         status r = held /\ expiresAt r < tCheck).
Proof.
  intros Hkv. split; [| split].
  - intros payload now. simpl. by apply all_audited_put.
  - intros id now. unfold CfWorkflow.finalize_reservation.
    destruct (KV_get kv id) as [r|]; [| done].
    destruct (status r); try done. simpl. by apply all_audited_put.
  - intros id tCheck tStamp. split.
    + intros Hall (r & Hid & Hget & Hs & Hlate).
      rewrite (confirm_held_late kv id r Hget Hid) in Hall by done.
      simpl in Hall. specialize (Hall id (mkEntry (expiredData r tStamp) None)).
      unfold KV_put in Hall. rewrite lookup_insert_eq in Hall.
      by specialize (Hall eq_refl).
    + intros Hnot. unfold CfApi.post_confirm. case_decide as Hid; [done |].
      destruct (KV_get kv id) as [r|] eqn:Hget; [| done].
      destruct (status r) eqn:Hs; try done.
      destruct (Z.gtb_spec tCheck (expiresAt r)) as [Hlate | Hin]; simpl.
      * destruct Hnot. exists r. repeat split; (done || lia).
      * by apply all_audited_put.
Qed.

Lemma audit_lifetime_witness :
  all_audited (CfWorkflow.create_hold sample_params 0 ∅).1 /\
  all_audited
    (CfWorkflow.finalize_reservation "r-1" 900000 (sample_kv sample_held)).1.
Proof.
  assert (all_audited ∅) as Hempty.
  { intros key e He. rewrite lookup_empty in He. discriminate. }
  split.
  - exact (proj1 (audit_lifetime ∅ Hempty) sample_params 0).
  - refine (proj1 (proj2 (audit_lifetime (sample_kv sample_held) _))
              "r-1" 900000).
    exact (proj1 (audit_lifetime ∅ Hempty) sample_params 0).
Defined.

(** ** The status route *)

Lemma pretty_N_go_head_not_e (x : N) (s : string) :
  (forall t, s <> String "e"%char t) ->
  forall t, pretty_N_go x s <> String "e"%char t.
Proof.
  revert s. induction (N.lt_wf_0 x) as [x _ IH]; intros s Hs t.
  destruct (decide (x = 0%N)) as [-> | Hx].
  - rewrite pretty_N_go_0. apply Hs.
  - rewrite pretty_N_go_step by lia. apply IH.
    + apply N.div_lt; lia.
    + intros t' [= Hchar _]. unfold pretty_N_char in Hchar.
      repeat case_match; discriminate.
Qed.

(** The text of a time that remains is never the text ["expired"]. *)
Lemma time_text_not_expired (minutes : Z) (rest : string) :
  (forall t, rest <> String "e"%char t) ->
  pretty minutes +:+ rest <> "expired".
Proof.
  intros Hrest. destruct minutes as [| p | p].
  - discriminate.
  - unfold pretty, pretty_Z, pretty, pretty_positive, pretty, pretty_N.
    case_decide; [discriminate |].
    pose proof (pretty_N_go_head_not_e (N.pos p) "") as Hhead.
    destruct (pretty_N_go (N.pos p) "") as [| c t]; simpl.
    + apply Hrest.
    + intros [= -> _]. by eapply Hhead.
  - discriminate.
Qed.

Lemma timeRemaining_held (r : ReservationData) (now : Z) :
  status r = held ->
  CfStatus.timeRemaining r now
  = if expiresAt r - now >? 0 then
      Some (pretty ((expiresAt r - now) / 60000) +:+ "m "
              +:+ pretty (Z.rem (expiresAt r - now) 60000 / 1000) +:+ "s")
    else Some "expired".
Proof. intros Hs. unfold CfStatus.timeRemaining. by rewrite Hs. Qed.

(** X9.  What the status route shows.  It answers 200 exactly when the id is
    not empty and a reservation is stored under it, and then returns the
    stored reservation as it is; 404 when nothing is stored.  Its
    [timeRemaining] is null exactly for a reservation that is not held, and
    the text "expired" exactly for a held reservation read at or after its
    [expiresAt]. *)
Theorem status_route_cases (kv : KV) (id : string) (now : Z) :
  let response := CfStatus.get_reservation id now kv in
  (CfStatus.http_status response = 200 <->
   id <> "" /\ is_Some (KV_get kv id)) /\
  (CfStatus.http_status response = 404 <-> id <> "" /\ KV_get kv id = None) /\
  (CfStatus.body_reservation response
   = if decide (id = "") then None else KV_get kv id) /\
  (forall r,
     id <> "" -> KV_get kv id = Some r ->
     (CfStatus.body_timeRemaining response = None <-> status r <> held) /\
     (CfStatus.body_timeRemaining response = Some "expired" <->
      status r = held /\ expiresAt r <= now)).
Proof.
  simpl. unfold CfStatus.get_reservation. case_decide as Hid.
  { simpl. repeat split; try done; by intros []. }
  destruct (KV_get kv id) as [r|] eqn:Hget; simpl.
  { split; [| split; [| split]]; [by eauto | by split; [| intros []] | done |].
    intros r0 _ [= <-]. split; split.
    - intros Hnone Hs. rewrite timeRemaining_held in Hnone by done.
      by destruct (expiresAt r - now >? 0).
    - intros Hs. unfold CfStatus.timeRemaining. by destruct (status r).
    - intros Htext. destruct (status r) eqn:Hs;
        try (unfold CfStatus.timeRemaining in Htext; rewrite Hs in Htext;
             discriminate).
      rewrite timeRemaining_held in Htext by done.
      destruct (Z.gtb_spec (expiresAt r - now) 0) as [Hpos | Hle];
        [| split; [done | lia]].
      injection Htext as Htext.
      by apply time_text_not_expired in Htext.
    - intros [Hs Hle]. rewrite timeRemaining_held by done.
      destruct (Z.gtb_spec (expiresAt r - now) 0); [lia | done]. }
  split; [| split; [| split]]; try done.
  split; [done |]. by intros [_ []].
Qed.

Lemma status_route_cases_witness :
  (CfStatus.body_timeRemaining
     (CfStatus.get_reservation "r-1" 900000 (sample_kv sample_held)) = None
   <-> status sample_held <> held) /\
  (CfStatus.body_timeRemaining
     (CfStatus.get_reservation "r-1" 900000 (sample_kv sample_held))
   = Some "expired"
   <-> status sample_held = held /\ expiresAt sample_held <= 900000).
Proof.
  refine (proj2 (proj2 (proj2 (status_route_cases (sample_kv sample_held)
                                 "r-1" 900000))) sample_held _ _).
  - discriminate.
  - vm_compute. reflexivity.
Defined.

Lemma timeRemaining_expired_iff (r : ReservationData) (now : Z) :
  status r = held ->
  CfStatus.timeRemaining r now = Some "expired" <-> expiresAt r <= now.
Proof.
  intros Hs. rewrite timeRemaining_held by done.
  destruct (Z.gtb_spec (expiresAt r - now) 0) as [Hpos | Hle].
  - split; [| lia]. intros [= Htext].
    by apply time_text_not_expired in Htext.
  - split; [lia | done].
Qed.

Lemma minutes_seconds_bounds (ms : Z) :
  0 < ms ->
  0 <= ms / 60000 /\
  0 <= Z.rem ms 60000 / 1000 < 60 /\
  ms / 60000 * 60000 + Z.rem ms 60000 / 1000 * 1000 <= ms
  < ms / 60000 * 60000 + Z.rem ms 60000 / 1000 * 1000 + 1000.
Proof.
  intros Hpos. rewrite Z.rem_mod_nonneg by lia.
  pose proof (Z.div_mod ms 60000 ltac:(lia)) as Hdm.
  pose proof (Z.mod_pos_bound ms 60000 ltac:(lia)) as Hm.
  pose proof (Z.div_mod (ms mod 60000) 1000 ltac:(lia)) as Hdm'.
  pose proof (Z.mod_pos_bound (ms mod 60000) 1000 ltac:(lia)) as Hm'.
  assert (0 <= ms / 60000) by (apply Z.div_pos; lia).
  assert (0 <= ms mod 60000 / 1000) by (apply Z.div_pos; lia).
  lia.
Qed.

(** X10.  The time the status route shows.  For a held reservation read
    before its [expiresAt] the text is [<minutes>m <seconds>s] with the
    seconds between 0 and 59, no negative number, and the time left rounded
    down to the second: the shown time is at most the time left and less
    than a second short of it. *)
Theorem time_shown_bounds (r : ReservationData) (now : Z) :
  status r = held ->
  now < expiresAt r ->
  exists minutes seconds,
    CfStatus.timeRemaining r now
    = Some (pretty minutes +:+ "m " +:+ pretty seconds +:+ "s") /\
    0 <= minutes /\
    0 <= seconds < 60 /\
    minutes * 60000 + seconds * 1000 <= expiresAt r - now
    < minutes * 60000 + seconds * 1000 + 1000.
Proof.
  intros Hs Hbefore. rewrite timeRemaining_held by done.
  rewrite (proj2 (Z.gtb_gt _ _)) by lia.
  eexists _, _. split; [reflexivity |].
  apply minutes_seconds_bounds. lia.
Qed.

Lemma time_shown_bounds_witness :
  exists minutes seconds,
    CfStatus.timeRemaining sample_held 5000
    = Some (pretty minutes +:+ "m " +:+ pretty seconds +:+ "s") /\
    0 <= minutes /\
    0 <= seconds < 60 /\
    minutes * 60000 + seconds * 1000 <= expiresAt sample_held - 5000
    < minutes * 60000 + seconds * 1000 + 1000.
Proof.
  apply (time_shown_bounds sample_held 5000).
  - reflexivity.
  - vm_compute. reflexivity.
Defined.

(** X11.  A fresh hold.  Read at the instant of its creation, the hold of
    the create-hold step shows "15m 0s"; read later and before its
    [expiresAt], it shows at most 14 minutes. *)
Theorem fresh_hold_time_shown
    (payload : CfWorkflow.ReservationParams) (t0 : Z) (kv : KV) :
  let r := (CfWorkflow.create_hold payload t0 kv).2 in
  CfStatus.timeRemaining r t0 = Some "15m 0s" /\
  (forall now,
     t0 < now < expiresAt r ->
     exists minutes seconds,
       CfStatus.timeRemaining r now
       = Some (pretty minutes +:+ "m " +:+ pretty seconds +:+ "s") /\
       0 <= minutes <= 14 /\ 0 <= seconds < 60).
Proof.
  simpl. split.
  - rewrite timeRemaining_held by done. simpl.
    replace (t0 + HOLD_MS - t0) with 900000 by (unfold HOLD_MS; lia).
    reflexivity.
  - intros now Hnow. rewrite timeRemaining_held by done. simpl.
    rewrite (proj2 (Z.gtb_gt _ _)) by lia.
    eexists _, _. split; [reflexivity |].
    pose proof (minutes_seconds_bounds (t0 + HOLD_MS - now) ltac:(lia))
      as (Hm & Hsec & Hlo & Hhi).
    unfold HOLD_MS in *. lia.
Qed.

Lemma fresh_hold_time_shown_witness :
  exists minutes seconds,
    CfStatus.timeRemaining (CfWorkflow.create_hold sample_params 0 ∅).2 5000
    = Some (pretty minutes +:+ "m " +:+ pretty seconds +:+ "s") /\
    0 <= minutes <= 14 /\ 0 <= seconds < 60.
Proof.
  refine (proj2 (fresh_hold_time_shown sample_params 0 ∅) 5000 _).
  vm_compute. split; reflexivity.
Defined.

(** X12.  The status route and the confirm route at the same instant, for a
    held reservation.  Whenever the status route shows a time that remains,
    a confirm at that instant answers 200; whenever the confirm is refused
    with 410, the status route shows "expired".  The two disagree at one
    instant only: at [expiresAt] itself the status route shows "expired"
    and the confirm still answers 200. *)
Theorem shown_time_and_confirm
    (kv : KV) (id : string) (now tStamp : Z) (r : ReservationData) :
  id <> "" ->
  KV_get kv id = Some r ->
  status r = held ->
  let shown :=
    CfStatus.body_timeRemaining (CfStatus.get_reservation id now kv) in
  let code := CfApi.http_status (CfApi.post_confirm id now tStamp kv).2 in
  (shown <> Some "expired" -> code = 200) /\
  (code = 410 -> shown = Some "expired") /\
  (shown = Some "expired" /\ code = 200 <-> now = expiresAt r).
Proof.
  intros Hid Hget Hs. simpl.
  unfold CfStatus.get_reservation. rewrite decide_False, Hget by done. simpl.
  pose proof (timeRemaining_expired_iff r now Hs) as Hshown.
  rewrite (confirm_found kv id r Hget Hid), Hs.
  destruct (Z.gtb_spec now (expiresAt r)) as [Hlate | Hin]; simpl.
  - split; [| split; [| split]].
    + intros Hne. destruct Hne. apply Hshown. lia.
    + intros _. apply Hshown. lia.
    + intros [_ Hcode]. discriminate.
    + intros ->. lia.
  - split; [| split; [| split]].
    + done.
    + discriminate.
    + intros [Hsh _]. apply Hshown in Hsh. lia.
    + intros ->. split; [apply Hshown; lia | done].
Qed.

Lemma shown_time_and_confirm_witness :
  CfStatus.body_timeRemaining
    (CfStatus.get_reservation "r-1" 900000 (sample_kv sample_held))
  = Some "expired" /\
  CfApi.http_status
    (CfApi.post_confirm "r-1" 900000 900000 (sample_kv sample_held)).2 = 200.
Proof.
  refine (proj2 (proj2 (proj2 (shown_time_and_confirm (sample_kv sample_held)
                                 "r-1" 900000 900000 sample_held _ _ _)))
            _).
  - discriminate.
  - vm_compute. reflexivity.
  - reflexivity.
  - vm_compute. reflexivity.
Defined.

(** ** The reserve route *)

(** X14.  From the reserve route to a confirmed seat.  For a body with a
    seat, when the workflow was created: until the create-hold step has run
    the status route and the confirm route answer 404 for the id the reserve
    route returned (as long as nothing was stored under it); once the step
    has run at [t0], the status route returns under that id a held
    reservation for the seat and the user of the body, expiring fifteen
    minutes after [t0]; a confirm read no later than that answers 200, and
    the status route then returns the confirmed reservation with no
    [timeRemaining]. *)
Theorem reserve_then_confirm
    (body : CfReserve.ReserveBody) (seat uuid instance_id st : string)
    (t0 now tStamp : Z) (kv : KV) :
  CfReserve.body_seatId body = Some seat ->
  seat <> "" ->
  uuid <> "" ->
  now <= t0 + 15 * 60 * 1000 ->
  exists params rid r,
    CfReserve.started (inr body) uuid (inr instance_id) (inr st)
    = Some params /\
    CfReserve.body_reservationId
      (CfReserve.post_reserve (inr body) uuid (inr instance_id) (inr st)).2
    = Some rid /\
    (KV_get kv rid = None ->
     CfStatus.http_status (CfStatus.get_reservation rid now kv) = 404 /\
     CfApi.http_status (CfApi.post_confirm rid now tStamp kv).2 = 404) /\
    let kv1 := (CfWorkflow.create_hold params t0 kv).1 in
    CfStatus.body_reservation (CfStatus.get_reservation rid now kv1) = Some r /\
    status r = held /\
    seatId r = seat /\
    userId r = CfReserve.body_userId body /\
    expiresAt r = t0 + 15 * 60 * 1000 /\
    CfApi.post_confirm rid now tStamp kv1
    = (KV_put rid (confirmedData r tStamp) (Some AUDIT_TTL) kv1,
       CfApi.message_response 200 "Reservation confirmed successfully"
         (confirmedData r tStamp)) /\
    CfStatus.get_reservation rid now (CfApi.post_confirm rid now tStamp kv1).1
    = CfStatus.mkStatusResponse 200 None None
        (Some (confirmedData r tStamp)) None.
Proof.
  intros Hseat Hne Hid Hnow.
  set (params := CfWorkflow.mkParams uuid seat (CfReserve.body_userId body)).
  set (r := (CfWorkflow.create_hold params t0 kv).2).
  exists params, uuid, r.
  assert (KV_get (CfWorkflow.create_hold params t0 kv).1 uuid = Some r)
    as Hget by apply KV_get_put_eq.
  split.
  { unfold CfReserve.started, CfReserve.post_reserve. rewrite Hseat.
    by rewrite decide_False by done. }
  split.
  { unfold CfReserve.post_reserve. rewrite Hseat.
    by rewrite decide_False by done. }
  split.
  { intros Hnone. unfold CfStatus.get_reservation, CfApi.post_confirm.
    rewrite !decide_False by done. by rewrite Hnone. }
  cbv zeta. split.
  { unfold CfStatus.get_reservation. by rewrite decide_False, Hget by done. }
  repeat (split; [reflexivity |]).
  rewrite (confirm_held_in_window _ uuid r Hget Hid)
    by (done || (simpl; unfold HOLD_MS; lia)).
  split; [reflexivity |]. simpl.
  unfold CfStatus.get_reservation.
  by rewrite decide_False, KV_get_put_eq by done.
Qed.

Lemma reserve_then_confirm_witness :
  exists params rid r,
    CfReserve.started (inr (CfReserve.mkBody (Some "A1") None)) "r-1"
      (inr "r-1") (inr "running")
    = Some params /\
    CfReserve.body_reservationId
      (CfReserve.post_reserve (inr (CfReserve.mkBody (Some "A1") None)) "r-1"
         (inr "r-1") (inr "running")).2
    = Some rid /\
    (KV_get ∅ rid = None ->
     CfStatus.http_status (CfStatus.get_reservation rid 5000 ∅) = 404 /\
     CfApi.http_status (CfApi.post_confirm rid 5000 5000 ∅).2 = 404) /\
    let kv1 := (CfWorkflow.create_hold params 0 ∅).1 in
    CfStatus.body_reservation (CfStatus.get_reservation rid 5000 kv1)
    = Some r /\
    status r = held /\
    seatId r = "A1" /\
    userId r = None /\
    expiresAt r = 0 + 15 * 60 * 1000 /\
    CfApi.post_confirm rid 5000 5000 kv1
    = (KV_put rid (confirmedData r 5000) (Some AUDIT_TTL) kv1,
       CfApi.message_response 200 "Reservation confirmed successfully"
         (confirmedData r 5000)) /\
    CfStatus.get_reservation rid 5000 (CfApi.post_confirm rid 5000 5000 kv1).1
    = CfStatus.mkStatusResponse 200 None None
        (Some (confirmedData r 5000)) None.
Proof.
  apply (reserve_then_confirm (CfReserve.mkBody (Some "A1") None)
           "A1" "r-1" "r-1" "running" 0 5000 5000 ∅).
  - reflexivity.
  - discriminate.
  - discriminate.
  - vm_compute. discriminate.
Defined.

(** ** A whole run *)

Lemma first_call_on_app id cs cs' :
  first_call_on id (cs ++ cs')
  = match first_call_on id cs with
    | Some c => Some c
    | None => first_call_on id cs'
    end.
Proof.
  induction cs as [| c cs IH]; [done |]. simpl. by case_decide.
Qed.

Lemma first_call_on_target id cs c :
  first_call_on id cs = Some c -> call_target c = id.
Proof.
  induction cs as [| c' cs IH]; [done |]. simpl.
  case_decide; [by intros [= <-] | done].
Qed.

(** X16.  On the Cloudflare workflow a hold that nobody touches lasts its
    full period: when the engine keeps the sleep and no call is sent to the
    reservation meanwhile, the run leaves it expired with an [expiredAt]
    that is the time of the finalize step, not before [expiresAt], fifteen
    minutes or more after [createdAt]. *)
Theorem cf_untouched_hold_expires_on_time
    (event : CfWorkflow.ReservationParams) (s : Schedule)
    (cs : list Call) (kv : KV) :
  wait_respected CfWorkflow.wait_for_confirmation s ->
  first_call_on (CfWorkflow.param_reservationId event) cs = None ->
  let id := CfWorkflow.param_reservationId event in
  let created := (CfWorkflow.create_hold event (t_create s) kv).2 in
  let result := CfWorkflow.run event s (apply_calls cs) kv in
  KV_get result.1 id = Some (expiredData created (t_finalize s)) /\
  result.2 = (created, CfWorkflow.status_is expired) /\
  expiresAt created <= t_finalize s /\
  createdAt created + 15 * 60 * 1000 <= t_finalize s.
Proof.
  intros [Hcreate Hsleep] Hnone. simpl. unfold CfWorkflow.run. simpl.
  set (id := CfWorkflow.param_reservationId event) in *.
  set (created :=
         {| reservationId := id; seatId := CfWorkflow.param_seatId event;
            userId := CfWorkflow.param_userId event; status := held;
            createdAt := t_create s; expiresAt := t_create s + HOLD_MS;
            confirmedAt := None; expiredAt := None |}).
  assert (KV_get (apply_calls cs (KV_put id created (Some AUDIT_TTL) kv)) id
          = Some created) as Hslept.
  { unfold KV_get. rewrite apply_calls_untargeted by done.
    apply KV_get_put_eq. }
  rewrite (finalize_held _ id _ Hslept _ eq_refl). simpl.
  rewrite KV_get_put_eq. rewrite cf_sleep_is_hold in Hsleep.
  unfold HOLD_MS in *. repeat split; lia.
Qed.

Lemma cf_untouched_hold_expires_on_time_witness :
  KV_get
    (CfWorkflow.run sample_params on_time
       (apply_calls [Confirm "r-2" 5000 5000]) ∅).1 "r-1"
  = Some (expiredData sample_held 900001).
Proof.
  refine (proj1 (cf_untouched_hold_expires_on_time sample_params on_time
                   [Confirm "r-2" 5000 5000] ∅ _ _)).
  - vm_compute. split; discriminate.
  - vm_compute. reflexivity.
Defined.

(** ** Calls that overlap *)

Lemma post_confirm_after_get (id : string) (tCheck tStamp : Z) (kv : KV) :
  id <> "" ->
  CfApi.post_confirm id tCheck tStamp kv
  = confirm_after_get id (KV_get kv id) tCheck tStamp kv.
Proof.
  intros Hid. unfold CfApi.post_confirm, confirm_after_get.
  by rewrite decide_False by done.
Qed.

Lemma finalize_reservation_after_get (id : string) (now : Z) (kv : KV) :
  CfWorkflow.finalize_reservation id now kv
  = finalize_after_get id (KV_get kv id) now kv.
Proof. reflexivity. Qed.

(** A call that goes on from what the namespace holds now is the call served
    at once. *)
Lemma after_get_current (c : Call) (kv : KV) :
  after_get c (KV_get kv (call_target c)) kv = apply_call c kv.
Proof.
  destruct c as [id tCheck tStamp | id now]; simpl.
  - case_decide as Hid.
    + unfold CfApi.post_confirm. by rewrite decide_True by done.
    + by rewrite post_confirm_after_get by done.
  - by rewrite finalize_reservation_after_get.
Qed.

Lemma serial_from_S (first count : nat) :
  serial_from first (S count)
  = Reads first :: Finishes first :: serial_from (S first) count.
Proof. reflexivity. Qed.

Lemma run_events_from_cons cs e es st :
  run_events_from cs (e :: es) st = run_events_from cs es (step cs e st).
Proof. reflexivity. Qed.

Lemma step_Reads cs n c st :
  cs !! n = Some c ->
  step cs (Reads n) st = (st.1, <[n := KV_get st.1 (call_target c)]> st.2).
Proof. intros Hc. simpl. by rewrite Hc. Qed.

Lemma step_Finishes cs n c currentData st :
  cs !! n = Some c ->
  st.2 !! n = Some currentData ->
  step cs (Finishes n) st = (after_get c currentData st.1, delete n st.2).
Proof. intros Hc Hread. simpl. by rewrite Hc, Hread. Qed.

Lemma run_serial_from (served cs : list Call) (kv : KV)
    (reads : gmap nat (option ReservationData)) :
  (run_events_from (served ++ cs) (serial_from (length served) (length cs))
     (kv, reads)).1
  = apply_calls cs kv.
Proof.
  revert served kv reads.
  induction cs as [| c cs IH]; intros served kv reads; [done |].
  simpl length. rewrite serial_from_S, apply_calls_cons.
  assert ((served ++ c :: cs)%list !! length served = Some c) as Hc
    by by apply list_lookup_middle.
  rewrite !run_events_from_cons.
  rewrite (step_Reads _ _ c) by done.
  rewrite (step_Finishes _ _ c (KV_get kv (call_target c)))
    by (done || apply lookup_insert_eq).
  simpl. rewrite after_get_current.
  specialize (IH (served ++ [c])%list (apply_call c kv)).
  rewrite <- app_assoc, length_app in IH. simpl in IH.
  rewrite Nat.add_1_r in IH. apply IH.
Qed.

Lemma run_events_serial (cs : list Call) (kv : KV) :
  run_events cs (serial cs) kv = apply_calls cs kv.
Proof. apply (run_serial_from [] cs kv ∅). Qed.

Lemma run_events_from_app cs es es' st :
  run_events_from cs (es ++ es') st
  = run_events_from cs es' (run_events_from cs es st).
Proof. apply foldl_app. Qed.

Lemma outcome_not_held (r : ReservationData) (c : Call) :
  status (outcome_of r (Some c)) = confirmed \/
  status (outcome_of r (Some c)) = expired.
Proof.
  destruct c as [? tCheck ? | ? ?]; simpl;
    [destruct (tCheck >? expiresAt r) |]; auto.
Qed.

Lemma after_get_other (c : Call) currentData (kv : KV) (id : string) :
  call_target c <> id ->
  KV_get (after_get c currentData kv) id = KV_get kv id.
Proof.
  intros Hne. destruct c as [id' tCheck tStamp | id' now]; simpl in *.
  - case_decide; [done |]. destruct currentData as [r|]; [| done]. simpl.
    destruct (status r); try done.
    destruct (tCheck >? expiresAt r); simpl; by rewrite KV_get_put_ne.
  - destruct currentData as [r|]; [| done]. simpl.
    destruct (status r); try done. simpl. by rewrite KV_get_put_ne.
Qed.

Lemma after_get_hold (c : Call) (kv : KV) (r : ReservationData) :
  call_target c <> "" ->
  status r = held ->
  KV_get (after_get c (Some r) kv) (call_target c)
  = Some (outcome_of r (Some c)).
Proof.
  intros Hid Hs. destruct c as [id tCheck tStamp | id now]; simpl in *.
  - rewrite decide_False by done. rewrite Hs.
    destruct (tCheck >? expiresAt r); simpl; by rewrite KV_get_put_eq.
  - rewrite Hs. simpl. by rewrite KV_get_put_eq.
Qed.

Lemma after_get_terminal (c : Call) (kv : KV) (r : ReservationData) :
  status r = confirmed \/ status r = expired ->
  after_get c (Some r) kv = kv.
Proof.
  intros Hterm. destruct c as [id tCheck tStamp | id now]; simpl.
  - case_decide; [done |]. by destruct Hterm as [-> | ->].
  - by destruct Hterm as [-> | ->].
Qed.

Section Overlap.
Variables (cs : list Call) (id : string) (r : ReservationData).
Hypothesis Hid : id <> "".
Hypothesis Hheld : status r = held.

Lemma written_terminal r' :
  written_by cs id r r' -> status r' = confirmed \/ status r' = expired.
Proof. intros (n & c & _ & _ & ->). apply outcome_not_held. Qed.

Lemma made_of_cases r' :
  made_of cs id r r' ->
  r' = r \/ (status r' = confirmed \/ status r' = expired).
Proof. intros [-> | Hw]; [by left | right; by apply written_terminal]. Qed.

Lemma step_settled e st : settled cs id r st -> settled cs id r (step cs e st).
Proof.
  intros [(r' & Hget & Hw) Hreads]. destruct st as [kv reads].
  cbn [fst snd] in *. destruct e as [n | n]; unfold step; cbn [fst snd].
  - destruct (cs !! n) as [c |] eqn:Hc; [| by split; eauto]. cbn [fst snd].
    split; cbn [fst snd]; [by eauto |]. intros m c' cur Hc' Htarget.
    destruct (decide (n = m)) as [<- | Hne].
    + rewrite lookup_insert_eq. intros [= <-].
      assert (c' = c) as -> by congruence. rewrite Htarget, Hget.
      exists r'. split; [done | by right].
    + rewrite lookup_insert_ne by done. by apply (Hreads m c').
  - destruct (cs !! n) as [c |] eqn:Hc; [| by split; eauto].
    destruct (reads !! n) as [cur |] eqn:Hcur; [| by split; eauto].
    split; cbn [fst snd].
    + destruct (decide (call_target c = id)) as [Htarget | Hne].
      * destruct (Hreads n c cur Hc Htarget Hcur) as (r0 & -> & Hmade).
        destruct (made_of_cases r0 Hmade) as [-> | Hterm].
        -- exists (outcome_of r (Some c)). split.
           ++ rewrite <- Htarget. apply after_get_hold; [| done].
              by rewrite Htarget.
           ++ by exists n, c.
        -- rewrite after_get_terminal by done. eauto.
      * rewrite after_get_other by done. eauto.
    + intros m c' cur' Hc' Htarget Hm.
      destruct (decide (n = m)) as [<- | Hne].
      * by rewrite lookup_delete_eq in Hm.
      * rewrite lookup_delete_ne in Hm by done. by eapply Hreads.
Qed.

Lemma step_untouched e st :
  untouched cs id r st ->
  untouched cs id r (step cs e st) \/ settled cs id r (step cs e st).
Proof.
  intros [Hget Hreads]. destruct st as [kv reads].
  cbn [fst snd] in *. destruct e as [n | n]; unfold step; cbn [fst snd].
  - left. destruct (cs !! n) as [c |] eqn:Hc; [| by split].
    split; cbn [fst snd]; [done |]. intros m c' cur Hc' Htarget.
    destruct (decide (n = m)) as [<- | Hne].
    + rewrite lookup_insert_eq. intros [= <-].
      assert (c' = c) as -> by congruence. by rewrite Htarget.
    + rewrite lookup_insert_ne by done. by apply (Hreads m c').
  - destruct (cs !! n) as [c |] eqn:Hc; [| by left; split].
    destruct (reads !! n) as [cur |] eqn:Hcur; [| by left; split].
    assert (forall m c' cur',
              cs !! m = Some c' -> call_target c' = id ->
              delete n reads !! m = Some cur' -> cur' = Some r) as Hrest.
    { intros m c' cur' Hc' Htarget Hm.
      destruct (decide (n = m)) as [<- | Hne].
      - by rewrite lookup_delete_eq in Hm.
      - rewrite lookup_delete_ne in Hm by done. by eapply Hreads. }
    destruct (decide (call_target c = id)) as [Htarget | Hne].
    + right. rewrite (Hreads n c cur Hc Htarget Hcur).
      split; cbn [fst snd].
      * exists (outcome_of r (Some c)). split.
        -- rewrite <- Htarget. apply after_get_hold; [| done].
           by rewrite Htarget.
        -- by exists n, c.
      * intros m c' cur' Hc' Htarget' Hm. exists r.
        split; [by eapply Hrest | by left].
    + left. split; cbn [fst snd]; [by rewrite after_get_other | done].
Qed.

Lemma run_settled es st :
  settled cs id r st -> settled cs id r (run_events_from cs es st).
Proof.
  revert st. induction es as [| e es IH]; intros st Hst; [done |].
  apply IH. by apply step_settled.
Qed.

Lemma run_untouched es st :
  untouched cs id r st ->
  untouched cs id r (run_events_from cs es st) \/
  settled cs id r (run_events_from cs es st).
Proof.
  revert st. induction es as [| e es IH]; intros st Hst; [by left |].
  destruct (step_untouched e st Hst) as [Hu | Hsettled].
  - by apply IH.
  - right. by apply (run_settled es).
Qed.

Lemma step_awaiting k c e st :
  cs !! k = Some c -> call_target c = id ->
  awaiting cs id r k st -> awaiting cs id r k (step cs e st).
Proof.
  intros Hk Htarget [Hsettled | [Hu Hread]].
  { left. by apply step_settled. }
  destruct (step_untouched e st Hu) as [Hu' | Hsettled]; [| by left].
  destruct (decide (e = Finishes k)) as [-> | He].
  - exfalso. destruct st as [kv reads]. destruct Hu as [Hget _].
    destruct Hu' as [Hget' _]. cbn [fst snd] in *.
    rewrite (step_Finishes cs k c (Some r)) in Hget' by done.
    cbn [fst snd] in Hget'. rewrite <- Htarget in Hget'.
    rewrite after_get_hold in Hget' by (done || by rewrite Htarget).
    assert (outcome_of r (Some c) = r) as Hout by congruence.
    destruct (outcome_not_held r c); congruence.
  - right. split; [done |]. destruct st as [kv reads].
    destruct Hu as [Hget _]. cbn [fst snd] in *.
    destruct e as [n | n]; unfold step; cbn [fst snd].
    + destruct (cs !! n) as [c' |] eqn:Hc'; [| done]. cbn [fst snd].
      destruct (decide (n = k)) as [-> | Hne].
      * rewrite lookup_insert_eq. assert (c' = c) as -> by congruence.
        by rewrite Htarget, Hget.
      * by rewrite lookup_insert_ne.
    + destruct (cs !! n) as [c' |] eqn:Hc'; [| done].
      destruct (reads !! n) as [cur |] eqn:Hcur; [| done]. cbn [fst snd].
      rewrite lookup_delete_ne; [done | congruence].
Qed.

Lemma run_awaiting k c es st :
  cs !! k = Some c -> call_target c = id ->
  awaiting cs id r k st -> awaiting cs id r k (run_events_from cs es st).
Proof.
  intros Hk Htarget. revert st.
  induction es as [| e es IH]; intros st Hst; [done |].
  apply IH. by eapply step_awaiting.
Qed.

Lemma reads_awaiting k c st :
  cs !! k = Some c -> call_target c = id ->
  untouched cs id r st \/ settled cs id r st ->
  awaiting cs id r k (step cs (Reads k) st).
Proof.
  intros Hk Htarget [Hu | Hsettled]; [| left; by apply step_settled].
  right. rewrite (step_Reads cs k c) by done.
  destruct st as [kv reads]. destruct Hu as [Hget Hreads].
  cbn [fst snd] in *. split; [split |]; cbn [fst snd].
  - done.
  - intros m c' cur Hc' Htarget'.
    destruct (decide (k = m)) as [<- | Hne].
    + rewrite lookup_insert_eq. intros [= <-]. by rewrite Htarget.
    + rewrite lookup_insert_ne by done. by apply (Hreads m c').
  - by rewrite lookup_insert_eq, Htarget, Hget.
Qed.

Lemma finishes_awaiting k c st :
  cs !! k = Some c -> call_target c = id ->
  awaiting cs id r k st -> settled cs id r (step cs (Finishes k) st).
Proof.
  intros Hk Htarget [Hsettled | [[Hget Hreads] Hread]].
  { by apply step_settled. }
  rewrite (step_Finishes cs k c (Some r)) by done.
  destruct st as [kv reads]. cbn [fst snd] in *. split; cbn [fst snd].
  - exists (outcome_of r (Some c)). split.
    + rewrite <- Htarget. apply after_get_hold; [| done]. by rewrite Htarget.
    + by exists k, c.
  - intros m c' cur' Hc' Htarget' Hm. exists r. split; [| by left].
    destruct (decide (k = m)) as [<- | Hkm].
    + by rewrite lookup_delete_eq in Hm.
    + rewrite lookup_delete_ne in Hm by done. by eapply Hreads.
Qed.

Lemma written_confirmed r' :
  written_by cs id r r' -> status r' = confirmed ->
  exists n tCheck tStamp,
    cs !! n = Some (Confirm id tCheck tStamp) /\ tCheck <= expiresAt r.
Proof.
  intros (n & c & Hc & Htarget & ->) Hs.
  destruct c as [id' tCheck tStamp | id' now]; simpl in *; subst id'.
  - destruct (Z.gtb_spec tCheck (expiresAt r)); [discriminate |].
    exists n, tCheck, tStamp. split; [done | lia].
  - discriminate.
Qed.

End Overlap.

Lemma untouched_start (cs : list Call) (kv : KV) id r :
  KV_get kv id = Some r -> untouched cs id r (kv, ∅).
Proof.
  intros Hget. split; [done |]. intros n c cur _ _ Hread.
  cbn [snd] in Hread. by rewrite lookup_empty in Hread.
Qed.

(** A confirm in time and a finalize that has read the hold before the
    confirm wrote: the finalize writes last and the reservation ends
    expired.  Two confirms in time that both read the hold: the stamp of the
    one that writes last stays. *)
Lemma overlapped_pairs (kv : KV) (id : string) (r : ReservationData)
    (tCheck tStamp tCheck' tStamp' now : Z) :
  id <> "" ->
  KV_get kv id = Some r ->
  status r = held ->
  tCheck <= expiresAt r ->
  tCheck' <= expiresAt r ->
  KV_get
    (run_events [Confirm id tCheck tStamp; Finalize id now]
       [Reads 1; Reads 0; Finishes 0; Finishes 1] kv) id
  = Some (expiredData r now) /\
  KV_get
    (run_events [Confirm id tCheck tStamp; Confirm id tCheck' tStamp']
       [Reads 0; Reads 1; Finishes 0; Finishes 1] kv) id
  = Some (confirmedData r tStamp').
Proof.
  intros Hid Hget Hs Hin Hin'.
  assert ((tCheck >? expiresAt r) = false) as Hgt
    by (destruct (Z.gtb_spec tCheck (expiresAt r)); [lia | done]).
  assert ((tCheck' >? expiresAt r) = false) as Hgt'
    by (destruct (Z.gtb_spec tCheck' (expiresAt r)); [lia | done]).
  unfold run_events, run_events_from. cbn [foldl].
  split.
  - rewrite (step_Reads _ 1 (Finalize id now)) by done.
    rewrite (step_Reads _ 0 (Confirm id tCheck tStamp)) by done.
    cbn [fst snd call_target]. rewrite Hget.
    rewrite (step_Finishes _ 0 (Confirm id tCheck tStamp) (Some r))
      by (done || apply lookup_insert_eq).
    rewrite (step_Finishes _ 1 (Finalize id now) (Some r)).
    + cbn [fst snd after_get finalize_after_get]. rewrite Hs.
      cbn [fst]. apply KV_get_put_eq.
    + done.
    + cbn [snd]. rewrite lookup_delete_ne, lookup_insert_ne by done.
      apply lookup_insert_eq.
  - rewrite (step_Reads _ 0 (Confirm id tCheck tStamp)) by done.
    rewrite (step_Reads _ 1 (Confirm id tCheck' tStamp')) by done.
    cbn [fst snd call_target]. rewrite Hget.
    rewrite (step_Finishes _ 0 (Confirm id tCheck tStamp) (Some r)).
    2: done.
    2:{ cbn [snd]. rewrite lookup_insert_ne by done. apply lookup_insert_eq. }
    rewrite (step_Finishes _ 1 (Confirm id tCheck' tStamp') (Some r)).
    + cbn [fst snd after_get confirm_after_get].
      rewrite !decide_False by done. rewrite Hs, Hgt, Hgt'.
      cbn [fst]. apply KV_get_put_eq.
    + done.
    + cbn [snd]. rewrite lookup_delete_ne by done. apply lookup_insert_eq.
Qed.

(** X3.  Who decides a hold.  Each call is a get followed, once the get has
    answered, by the rest of the call, and calls may overlap.  For a held
    reservation under a non-empty id: when the calls are served one at a
    time, the stored reservation is what the first call sent to that id made
    of the hold, and the calls after it change nothing.  However they
    overlap, the stored reservation is the hold or what one of the calls
    sent to it made of the hold, and it is confirmed only if one of them
    was a confirm read at or before [expiresAt].  When they overlap the
    first call need not decide: a finalize that read the hold before a
    confirm in time wrote leaves the reservation expired. *)
Theorem first_call_decides
    (cs : list Call) (kv : KV) (id : string) (r : ReservationData) :
  id <> "" ->
  KV_get kv id = Some r ->
  status r = held ->
  (run_events cs (serial cs) kv = apply_calls cs kv /\
   KV_get (run_events cs (serial cs) kv) id
   = Some (outcome_of r (first_call_on id cs))) /\
  (forall es,
     exists r',
       KV_get (run_events cs es kv) id = Some r' /\
       made_of cs id r r' /\
       (status r' = confirmed ->
        exists n tCheck tStamp,
          cs !! n = Some (Confirm id tCheck tStamp) /\
          tCheck <= expiresAt r)) /\
  (forall tCheck tStamp now,
     tCheck <= expiresAt r ->
     KV_get
       (run_events [Confirm id tCheck tStamp; Finalize id now]
          (serial [Confirm id tCheck tStamp; Finalize id now]) kv) id
     = Some (confirmedData r tStamp) /\
     KV_get
       (run_events [Confirm id tCheck tStamp; Finalize id now]
          [Reads 1; Reads 0; Finishes 0; Finishes 1] kv) id
     = Some (expiredData r now)).
Proof.
  intros Hid Hget Hs. split; [| split].
  - rewrite run_events_serial. split; [done |]. by apply held_after_calls.
  - intros es.
    destruct (run_untouched cs id r Hid Hs es (kv, ∅)
                (untouched_start cs kv id r Hget))
      as [[Hfinal _] | [(r' & Hfinal & Hw) _]].
    + exists r. split; [done |]. split; [by left |]. congruence.
    + exists r'. split; [done |]. split; [by right |].
      intros Hc. by eapply written_confirmed.
  - intros tCheck tStamp now Hin. split.
    + rewrite run_events_serial.
      rewrite (held_after_calls _ kv id r Hid Hget Hs).
      cbn [first_call_on call_target]. rewrite decide_True by done.
      cbn [outcome_of].
      destruct (Z.gtb_spec tCheck (expiresAt r)); [lia | done].
    + by apply (overlapped_pairs kv id r tCheck tStamp tCheck tStamp now).
Qed.

Lemma first_call_decides_witness :
  KV_get
    (run_events
       [Confirm "r-2" 1 1; Confirm "r-1" 5000 5001; Finalize "r-1" 900000]
       (serial
          [Confirm "r-2" 1 1; Confirm "r-1" 5000 5001; Finalize "r-1" 900000])
       (sample_kv sample_held)) "r-1"
  = Some (confirmedData sample_held 5001) /\
  KV_get
    (run_events [Confirm "r-1" 5000 5001; Finalize "r-1" 900000]
       [Reads 1; Reads 0; Finishes 0; Finishes 1]
       (sample_kv sample_held)) "r-1"
  = Some (expiredData sample_held 900000).
Proof.
  assert ("r-1" <> "") as Hid by discriminate.
  assert (KV_get (sample_kv sample_held) "r-1" = Some sample_held) as Hget
    by (vm_compute; reflexivity).
  assert (status sample_held = held) as Hs by reflexivity.
  split.
  - exact (proj2 (proj1 (first_call_decides
                           [Confirm "r-2" 1 1; Confirm "r-1" 5000 5001;
                            Finalize "r-1" 900000]
                           (sample_kv sample_held) "r-1" sample_held
                           Hid Hget Hs))).
  - refine (proj2 (proj2 (proj2 (first_call_decides []
                                   (sample_kv sample_held) "r-1" sample_held
                                   Hid Hget Hs)) 5000 5001 900000 _)).
    vm_compute. discriminate.
Defined.

(** A run whose calls are served one at a time, all of them during the
    sleep. *)
Lemma run_in_turn
    (event : CfWorkflow.ReservationParams) (s : Schedule)
    (cs : list Call) (kv : KV) :
  CfWorkflow.param_reservationId event <> "" ->
  let id := CfWorkflow.param_reservationId event in
  let created := (CfWorkflow.create_hold event (t_create s) kv).2 in
  let decided :=
    outcome_of created
      (first_call_on id (cs ++ [Finalize id (t_finalize s)])) in
  let result := CfWorkflow.run event s (apply_calls cs) kv in
  KV_get result.1 id = Some decided /\
  result.2 = (created, CfWorkflow.status_is (status decided)) /\
  (status decided = confirmed \/ status decided = expired) /\
  (status decided = confirmed <->
   exists tCheck tStamp,
     first_call_on id cs = Some (Confirm id tCheck tStamp) /\
     tCheck <= expiresAt created).
Proof.
  intros Hid. simpl. unfold CfWorkflow.run. simpl.
  set (id := CfWorkflow.param_reservationId event) in *.
  set (created :=
         {| reservationId := id; seatId := CfWorkflow.param_seatId event;
            userId := CfWorkflow.param_userId event; status := held;
            createdAt := t_create s; expiresAt := t_create s + HOLD_MS;
            confirmedAt := None; expiredAt := None |}).
  set (kv1 := KV_put id created (Some AUDIT_TTL) kv).
  pose proof (held_after_calls cs kv1 id created Hid
                (KV_get_put_eq kv id created _) eq_refl) as Hslept.
  rewrite first_call_on_app. simpl. rewrite decide_True by done.
  destruct (first_call_on id cs) as [c |] eqn:Hfirst; simpl in *.
  - pose proof (first_call_on_target id cs c Hfirst) as Htarget.
    assert (status (outcome_of created (Some c)) <> held) as Hterm.
    { destruct c as [? tCheck ? | ? ?]; simpl;
        [destruct (tCheck >? t_create s + HOLD_MS) |]; done. }
    rewrite (finalize_not_held _ id _ Hslept _ Hterm). simpl.
    split; [done |]. split; [done |].
    destruct c as [id' tCheck tStamp | id' now]; simpl in *; subst id'.
    + destruct (Z.gtb_spec tCheck (t_create s + HOLD_MS)); simpl.
      * split; [by right |]. split; [done |].
        intros (tc & ts & [= -> ->] & Hle). lia.
      * split; [by left |]. split; [| done].
        intros _. exists tCheck, tStamp. split; [done | lia].
    + split; [by right |]. split; [done |]. by intros (? & ? & [=] & _).
  - rewrite (finalize_held _ id _ Hslept _ eq_refl). simpl.
    rewrite KV_get_put_eq.
    split; [done |]. split; [done |]. split; [by right |].
    split; [done |]. by intros (? & ? & [=] & _).
Qed.

Lemma serial_from_add (first n m : nat) :
  serial_from first (n + m)
  = (serial_from first n ++ serial_from (first + n) m)%list.
Proof.
  unfold serial_from. by rewrite seq_app, flat_map_app.
Qed.

Lemma run_overlapped_in_turn
    (event : CfWorkflow.ReservationParams) (s : Schedule)
    (cs : list Call) (kv : KV) :
  run_overlapped event s cs (serial cs) [] kv
  = (CfWorkflow.run event s (apply_calls cs) kv).1.
Proof.
  unfold run_overlapped, CfWorkflow.run.
  set (id := CfWorkflow.param_reservationId event).
  destruct (CfWorkflow.create_hold event (t_create s) kv) as [kv1 created].
  cbn [fst].
  replace (serial cs ++ Reads (length cs) :: [] ++ [Finishes (length cs)])%list
    with (serial (cs ++ [Finalize id (t_finalize s)])).
  - rewrite run_events_serial. unfold apply_calls. rewrite foldl_app.
    cbn [foldl apply_call].
    by destruct (CfWorkflow.finalize_reservation id (t_finalize s)
                   (foldl (fun kv c => apply_call c kv) kv1 cs)).
  - unfold serial. rewrite length_app. cbn [length].
    rewrite serial_from_add. by rewrite Nat.add_0_l.
Qed.

(** X15.  How a run ends.  Take a run of the Cloudflare workflow for a
    non-empty id, with confirm and finalize calls that overlap it in any
    way: each call is a get followed by the rest of the call, and so is the
    finalize step of the run.  When the finalize step has finished, the
    reservation stored under the id of the run is confirmed or expired,
    never held; it is what one of the calls, or the finalize step, made of
    the hold; and it is confirmed only if one of the calls was a confirm
    read at or before [expiresAt].  When the calls are served one at a time
    during the sleep, the reservation is what the first call sent to it made
    of the hold, the finalize step counting last; it is confirmed exactly
    when that first call was a confirm read at or before [expiresAt]; and
    the finalize step returns the status the reservation ends with. *)
Theorem run_outcome
    (event : CfWorkflow.ReservationParams) (s : Schedule)
    (cs : list Call) (before during : list Event) (kv : KV) :
  CfWorkflow.param_reservationId event <> "" ->
  let id := CfWorkflow.param_reservationId event in
  let created := (CfWorkflow.create_hold event (t_create s) kv).2 in
  let last := Finalize id (t_finalize s) in
  (exists r',
     KV_get (run_overlapped event s cs before during kv) id = Some r' /\
     (status r' = confirmed \/ status r' = expired) /\
     written_by (cs ++ [last]) id created r' /\
     (status r' = confirmed ->
      exists n tCheck tStamp,
        cs !! n = Some (Confirm id tCheck tStamp) /\
        tCheck <= expiresAt created)) /\
  (let result := CfWorkflow.run event s (apply_calls cs) kv in
   let decided := outcome_of created (first_call_on id (cs ++ [last])) in
   run_overlapped event s cs (serial cs) [] kv = result.1 /\
   KV_get result.1 id = Some decided /\
   result.2 = (created, CfWorkflow.status_is (status decided)) /\
   (status decided = confirmed <->
    exists tCheck tStamp,
      first_call_on id cs = Some (Confirm id tCheck tStamp) /\
      tCheck <= expiresAt created)).
Proof.
  intros Hid id created last. split.
  - set (calls := (cs ++ [last])%list).
    assert (calls !! length cs = Some last) as Hlast
      by by apply list_lookup_middle.
    assert (KV_get (CfWorkflow.create_hold event (t_create s) kv).1 id
            = Some created) as Hget by apply KV_get_put_eq.
    assert (status created = held) as Hs by reflexivity.
    unfold run_overlapped, run_events. fold id last calls.
    rewrite run_events_from_app, run_events_from_cons, run_events_from_app.
    pose proof (run_untouched calls id created Hid Hs before _
                  (untouched_start calls _ id created Hget)) as Hbefore.
    pose proof (reads_awaiting calls id created Hid Hs (length cs) last _
                  Hlast eq_refl Hbefore) as Hread.
    pose proof (run_awaiting calls id created Hid Hs (length cs) last during _
                  Hlast eq_refl Hread) as Hduring.
    pose proof (finishes_awaiting calls id created Hid Hs (length cs) last _
                  Hlast eq_refl Hduring) as [(r' & Hfinal & Hw) _].
    exists r'. split; [exact Hfinal |].
    split; [by eapply written_terminal |]. split; [done |].
    intros Hc.
    destruct (written_confirmed calls id created r' Hw Hc)
      as (n & tCheck & tStamp & Hn & Hin).
    exists n, tCheck, tStamp. split; [| done].
    unfold calls in Hn. apply lookup_app_Some in Hn as [Hn | [_ Hn]]; [done |].
    destruct (n - length cs)%nat as [| m]; [discriminate | done].
  - cbn zeta. split; [apply run_overlapped_in_turn |].
    destruct (run_in_turn event s cs kv Hid) as (H1 & H2 & _ & H4).
    by split; [| split].
Qed.

Lemma run_outcome_witness :
  exists r',
    KV_get
      (run_overlapped sample_params on_time [Confirm "r-1" 5000 5001]
         [Reads 0] [Finishes 0] ∅) "r-1" = Some r' /\
    (status r' = confirmed \/ status r' = expired) /\
    written_by ([Confirm "r-1" 5000 5001] ++ [Finalize "r-1" 900001]) "r-1"
      (CfWorkflow.create_hold sample_params 0 ∅).2 r' /\
    (status r' = confirmed ->
     exists n tCheck tStamp,
       [Confirm "r-1" 5000 5001] !! n = Some (Confirm "r-1" tCheck tStamp) /\
       tCheck <= expiresAt (CfWorkflow.create_hold sample_params 0 ∅).2).
Proof.
  refine (proj1 (run_outcome sample_params on_time [Confirm "r-1" 5000 5001]
                   [Reads 0] [Finishes 0] ∅ _)).
  discriminate.
Defined.

(** ** The reserve route on any body *)

Lemma post_reserve_typed
    (body : CfReserve.ReserveBody) (uuid : string)
    (created instanceStatus : CfReserve.Thrown + string) :
  let narrow := CfReserve.post_reserve (inr body) uuid created instanceStatus in
  CfReserveAny.post_reserve (inr (CfReserveAny.typed body)) uuid
    created instanceStatus
  = ((fun issued => (issued.1, CfReserveAny.typed_params issued.2))
       <$> narrow.1,
     CfReserveAny.typed_response narrow.2).
Proof.
  destruct body as [[seat |] user]; cbn.
  - unfold CfReserveAny.falsy. cbn. case_decide as Hseat.
    + by rewrite bool_decide_eq_true_2.
    + rewrite bool_decide_eq_false_2 by done.
      by destruct created as [e | id]; [| destruct instanceStatus].
  - done.
Qed.

(** X13.  What the reserve route answers and what it starts, on whatever
    body the request carries.  It answers 400 exactly when the parsed body
    is not [null] and its [seatId] is falsy (absent, [null], [false], 0 or
    the empty string), and then asks nothing of the workflow binding; for
    the body [null] it answers 500 and asks nothing either; it answers 201
    exactly when the [seatId] is truthy and both [create] and [status ()]
    returned.  The params it hands to the workflow are the new id and the
    [seatId] and [userId] of the body as they are.  A workflow runs after a
    500 answer exactly when [create] returned and [status ()] threw.  On a
    body of the declared type it is [CfReserve.post_reserve]. *)
Theorem reserve_outcomes
    (json : CfReserve.Thrown + CfReserveAny.Body) (uuid : string)
    (created instanceStatus : CfReserve.Thrown + string) :
  let issued :=
    (CfReserveAny.post_reserve json uuid created instanceStatus).1 in
  let response :=
    (CfReserveAny.post_reserve json uuid created instanceStatus).2 in
  let running := CfReserveAny.started json uuid created instanceStatus in
  (forall body,
     json = inr (CfReserveAny.typed body) ->
     let narrow :=
       CfReserve.post_reserve (inr body) uuid created instanceStatus in
     issued = (fun issued => (issued.1, CfReserveAny.typed_params issued.2))
                <$> narrow.1 /\
     response = CfReserveAny.typed_response narrow.2) /\
  (CfReserveAny.http_status response = 400 <->
   exists seatId userId,
     json = inr (CfReserveAny.value_body seatId userId) /\
     CfReserveAny.falsy seatId = true) /\
  (CfReserveAny.http_status response = 400 -> issued = None) /\
  (json = inr CfReserveAny.null_body ->
   CfReserveAny.http_status response = 500 /\ issued = None) /\
  (CfReserveAny.http_status response = 201 <->
   exists seatId userId id st,
     json = inr (CfReserveAny.value_body seatId userId) /\
     CfReserveAny.falsy seatId = false /\
     created = inr id /\ instanceStatus = inr st) /\
  (forall id params,
     issued = Some (id, params) ->
     id = uuid /\
     CfReserveAny.param_reservationId params = uuid /\
     CfReserveAny.falsy (CfReserveAny.param_seatId params) = false /\
     json = inr (CfReserveAny.value_body
                   (CfReserveAny.param_seatId params)
                   (CfReserveAny.param_userId params))) /\
  (CfReserveAny.http_status response = 201 ->
   CfReserveAny.body_reservationId response = Some uuid /\
   CfReserveAny.body_status response = Some "held" /\
   exists params,
     running = Some params /\
     CfReserveAny.param_reservationId params = uuid) /\
  (CfReserveAny.http_status response = 500 /\ is_Some running <->
   exists seatId userId id e,
     json = inr (CfReserveAny.value_body seatId userId) /\
     CfReserveAny.falsy seatId = false /\
     created = inr id /\ instanceStatus = inl e).
Proof.
  cbn zeta. split.
  { intros body ->. pose proof (post_reserve_typed body uuid created
                                  instanceStatus) as Htyped.
    cbn zeta in Htyped. by rewrite Htyped. }
  unfold CfReserveAny.started, CfReserveAny.post_reserve.
  destruct json as [e | [| seatId userId]];
    [| | destruct (CfReserveAny.falsy seatId) eqn:Hfalsy;
         [| destruct created as [e | id];
            [| destruct instanceStatus as [e | st]]]];
    cbn; classify_response.
  all: try (by match goal with H : is_Some None |- _ => destruct H end).
  all: try congruence.
  all: eauto 10.
Qed.

Lemma reserve_outcomes_witness :
  (CfReserveAny.http_status
     (CfReserveAny.post_reserve (inr CfReserveAny.null_body) "r-1"
        (inr "r-1") (inr "running")).2 = 500 /\
   (CfReserveAny.post_reserve (inr CfReserveAny.null_body) "r-1"
      (inr "r-1") (inr "running")).1 = None) /\
  (CfReserveAny.post_reserve
     (inr (CfReserveAny.value_body CfReserveAny.js_zero
             CfReserveAny.js_absent)) "r-1" (inr "r-1") (inr "running")).1
  = None.
Proof.
  split.
  - refine (proj1 (proj2 (proj2 (proj2
              (reserve_outcomes (inr CfReserveAny.null_body) "r-1"
                 (inr "r-1") (inr "running"))))) _).
    reflexivity.
  - refine (proj1 (proj2 (proj2
              (reserve_outcomes
                 (inr (CfReserveAny.value_body CfReserveAny.js_zero
                         CfReserveAny.js_absent))
                 "r-1" (inr "r-1") (inr "running")))) _).
    vm_compute. reflexivity.
Defined.
